(** * Young Vision: the image normalizer and the session state of [App.tsx]

    A shallow embedding of the two pieces of logic in [src/App.tsx]:
    the dimension computation of [resizeImage] and the handlers of the [App]
    component ([handleFileSelect], [handleCameraCapture], [handleGenerate],
    [resetApp]) together with the JSX conditions that decide which handler
    is wired up in which [appState]. *)

From Stdlib Require Import ZArith NArith QArith List Ascii String Bool Lia.
Import ListNotations.

Local Open Scope Z_scope.
Local Open Scope string_scope.

(** ** JavaScript values used by the component *)

(** A JavaScript string as its sequence of UTF-16 code units. *)
Definition JSString := list N.

(** The code units of an ASCII literal. *)
Fixpoint jsstr (s : string) : JSString :=
  match s with
  | EmptyString => []
  | String c r => N_of_ascii c :: jsstr r
  end.

(** ECMAScript [WhiteSpace] and [LineTerminator] code points, the
    characters [String.prototype.trim] removes. All of them lie in the
    basic plane, so each is one code unit. *)
Definition isWhiteSpace (c : N) : bool :=
  match c with
  | 9 | 10 | 11 | 12 | 13 | 32 | 160 | 5760
  | 8232 | 8233 | 8239 | 8287 | 12288 | 65279 => true
  | _ => (8192 <=? c) && (c <=? 8202)
  end%N.

Fixpoint trimStart (s : JSString) : JSString :=
  match s with
  | [] => []
  | c :: r => if isWhiteSpace c then trimStart r else s
  end.

Definition trimEnd (s : JSString) : JSString := rev (trimStart (rev s)).

(** [s.trim()] *)
Definition trim (s : JSString) : JSString := trimEnd (trimStart s).

(** Truthiness of a string: the empty string is falsy. *)
Definition truthy (s : JSString) : bool :=
  match s with [] => false | _ :: _ => true end.

(** A prompt that is empty or made of white space only. *)
Definition blank (s : JSString) : bool := forallb isWhiteSpace s.

(** A thrown or rejected value, seen through the one property the component
    reads. A promise can reject with anything: with [null] or [undefined]
    ([Nullish]), on which reading [message] itself throws a [TypeError], or
    with any other value ([Thrown]), whose [message] is [undefined] ([None])
    or a string. *)
Inductive JSError : Type :=
| Nullish
| Thrown (message : option string).

(** [new Error(msg)] *)
Definition newError (msg : string) : JSError := Thrown (Some msg).

(** The [TypeError] raised by a property read on [null] or [undefined]. Its
    text is the engine's; nothing in the component reads it. *)
Definition typeErrorOnNullish : JSError :=
  newError "Cannot read properties of null or undefined (reading 'message')".

(** [message || fallback]: [undefined] and the empty string are falsy. *)
Definition messageOr (message : option string) (fallback : string) : string :=
  match message with
  | Some m => if String.eqb m "" then fallback else m
  | None => fallback
  end.

(** How an awaited promise settles. [Pending] is a promise that has not
    settled: the [await] does not return. *)
Inductive Outcome (A : Type) : Type :=
| Resolved (a : A)
| Rejected (err : JSError)
| Pending.
Arguments Resolved {A} a.
Arguments Rejected {A} err.
Arguments Pending {A}.

(** ** The image normalizer *)

Module Normalizer.

(** What the browser finds when [FileReader] and [Image] load a file:
    the read fails ([reader.onerror]), the decode fails ([img.onerror]),
    or the image loads with its intrinsic [img.width] and [img.height]. *)
Inductive FileContent : Type :=
| Unreadable
| Undecodable
| Raster (width height : Z).

Record File := mkFile {
  fileName : string;
  fileType : string;
  content : FileContent
}.

(** [Math.round(a / b)] for integers [a] and [b] with [b > 0]: the nearest
    integer, a tie going up, that is the floor of [a/b + 1/2]. The quotient
    is taken exactly, where the source divides in double precision; the two
    agree on the sizes of [inExactRange] below, and can differ by one beyond
    them. *)
Definition mathRoundDiv (a b : Z) : Z := (2 * a + b) / (2 * b).

(** Sizes on which the double-precision [Math.round((side' * bound) / side)]
    of the source, for [side' <= side], is the exact rounding: the product is
    below [2^53] and so computed exactly, and the quotient, below [bound], is
    at least [1 / (2 * side)] away from any half-integer it does not hit,
    which is more than the [bound * 2^-52] by which the division can be off.
    Every [img.width] and [img.height] (32 bits) is in range of the default
    bound of 1024. *)
Definition inExactRange (side bound : Z) : Prop := side * bound < 2 ^ 51.

(** Lines 19 to 30 of [resizeImage]: the canvas width and height. *)
Definition resizeDims (width height maxWidth maxHeight : Z) : Z * Z :=
  if (width >? maxWidth) || (height >? maxHeight) then
    if width >? height then
      (maxWidth, mathRoundDiv (height * maxWidth) width)
    else
      (mathRoundDiv (width * maxHeight) height, maxHeight)
  else
    (width, height).

(** The base64 JPEG the canvas yields, kept as what determines it: the
    canvas size, the quality and the image drawn. A canvas with a side of 0
    encodes to the empty payload; the promise resolves all the same. *)
Record Payload := mkPayload {
  canvasWidth : Z;
  canvasHeight : Z;
  jpegQuality : Q;
  drawn : File
}.

Definition resizeImage (file : File) (maxWidth maxHeight : Z) (quality : Q)
  : Outcome Payload :=
  match content file with
  | Unreadable => Rejected (newError "Failed to read file")
  | Undecodable => Rejected (newError "Failed to load image for resizing")
  | Raster w h =>
      let (width, height) := resizeDims w h maxWidth maxHeight in
      Resolved (mkPayload width height quality file)
  end.

(** The default parameters [maxWidth = 1024, maxHeight = 1024, quality = 0.8]. *)
Definition defaultMaxWidth : Z := 1024.
Definition defaultMaxHeight : Z := 1024.
Definition defaultQuality : Q := 8 # 10.

(** [resizeImage(file)] *)
Definition resizeImageDefault (file : File) : Outcome Payload :=
  resizeImage file defaultMaxWidth defaultMaxHeight defaultQuality.

(** The scaling as the specification words it: one ratio, the larger of
    [width / maxWidth] and [height / maxHeight], applied to both
    dimensions, so that the dimension with the larger ratio meets its bound. *)
Definition scaleByLargerRatio (width height maxWidth maxHeight : Z) : Z * Z :=
  if (width >? maxWidth) || (height >? maxHeight) then
    if width * maxHeight >=? height * maxWidth then
      (maxWidth, mathRoundDiv (height * maxWidth) width)
    else
      (mathRoundDiv (width * maxHeight) height, maxHeight)
  else
    (width, height).

(** Both dimensions within the configured bounds. *)
Definition withinBounds (d : Z * Z) (maxWidth maxHeight : Z) : Prop :=
  fst d <= maxWidth /\ snd d <= maxHeight.

End Normalizer.

(** ** The component state and its handlers *)

Module App.
Import Normalizer.

(** [AppState] of [./types], by the members the component uses. *)
Inductive AppState : Type := IDLE | CAPTURING | PREVIEW | GENERATING | RESULT.

(** The six [useState] cells of [App]. *)
Record Session := mkSession {
  appState : AppState;
  selectedFile : option File;
  previewUrl : option nat;
  prompt : JSString;
  generatedImage : option string;
  error : option string
}.

(** The browser's blob URL store behind [URL.createObjectURL] and
    [URL.revokeObjectURL]. An object URL is identified by its serial number;
    the URL string itself is never empty. *)
Record BlobStore := mkBlobStore {
  entries : list (nat * File);
  nextId : nat
}.

Definition live (url : nat) (b : BlobStore) : bool :=
  existsb (fun e => Nat.eqb (fst e) url) (entries b).

(** The collaborator [generateFutureSelf] of [./services/geminiService]:
    an encoded payload, a mime type and a prompt give a promise of a result
    URL. *)
Definition Generator := Payload -> string -> JSString -> Outcome string.

(** Calls that leave the component, in the order they are made. *)
Inductive Call : Type :=
| NormalizeCall (file : File)
| GenerateCall (payload : Payload) (mimeType : string) (text : JSString).

Record World := mkWorld {
  session : Session;
  blobs : BlobStore;
  calls : list Call
}.

(** How a run of a handler ends: it returns, it throws, or it stays
    suspended at an [await] that does not settle. *)
Inductive Completion (A : Type) : Type :=
| Normal (a : A)
| Throw (err : JSError)
| Suspended.
Arguments Normal {A} a.
Arguments Throw {A} err.
Arguments Suspended {A}.

(** Handlers are state transformers over the world that may throw or
    suspend. *)
Definition M (A : Type) : Type := World -> Completion A * World.

Definition ret {A : Type} (a : A) : M A := fun w => (Normal a, w).

Definition bind {A B : Type} (m : M A) (k : A -> M B) : M B :=
  fun w =>
    match m w with
    | (Normal a, w') => k a w'
    | (Throw err, w') => (Throw err, w')
    | (Suspended, w') => (Suspended, w')
    end.

Declare Scope handler_scope.
Delimit Scope handler_scope with handler.
Notation "x <- m ;; k" := (bind m (fun x => k))
  (at level 61, m at next level, right associativity) : handler_scope.
Notation "m ;; k" := (bind m (fun _ => k))
  (at level 61, right associativity) : handler_scope.
Local Open Scope handler_scope.

Definition throw {A : Type} (err : JSError) : M A := fun w => (Throw err, w).

(** [try { body } catch (err) { handler }] *)
Definition tryCatch {A : Type} (body : M A) (handler : JSError -> M A) : M A :=
  fun w =>
    match body w with
    | (Throw err, w') => handler err w'
    | r => r
    end.

(** [err.message] *)
Definition getMessage (err : JSError) : M (option string) :=
  match err with
  | Nullish => throw typeErrorOnNullish
  | Thrown message => ret message
  end.

(** [await p] *)
Definition await {A : Type} (p : Outcome A) : M A :=
  fun w =>
    match p with
    | Resolved a => (Normal a, w)
    | Rejected err => (Throw err, w)
    | Pending => (Suspended, w)
    end.

Definition exec {A : Type} (m : M A) (w : World) : World := snd (m w).

Definition getSession : M Session := fun w => (Normal (session w), w).

Definition modifySession (f : Session -> Session) : M unit :=
  fun w => (Normal tt, mkWorld (f (session w)) (blobs w) (calls w)).

Definition record (c : Call) : M unit :=
  fun w => (Normal tt, mkWorld (session w) (blobs w) (calls w ++ [c])).

(** The state setters returned by [useState]. *)
Definition setAppState (a : AppState) : M unit :=
  modifySession (fun s =>
    mkSession a (selectedFile s) (previewUrl s) (prompt s) (generatedImage s) (error s)).

Definition setSelectedFile (f : option File) : M unit :=
  modifySession (fun s =>
    mkSession (appState s) f (previewUrl s) (prompt s) (generatedImage s) (error s)).

Definition setPreviewUrl (u : option nat) : M unit :=
  modifySession (fun s =>
    mkSession (appState s) (selectedFile s) u (prompt s) (generatedImage s) (error s)).

Definition setPrompt (p : JSString) : M unit :=
  modifySession (fun s =>
    mkSession (appState s) (selectedFile s) (previewUrl s) p (generatedImage s) (error s)).

Definition setGeneratedImage (g : option string) : M unit :=
  modifySession (fun s =>
    mkSession (appState s) (selectedFile s) (previewUrl s) (prompt s) g (error s)).

Definition setError (e : option string) : M unit :=
  modifySession (fun s =>
    mkSession (appState s) (selectedFile s) (previewUrl s) (prompt s) (generatedImage s) e).

(** [URL.createObjectURL(file)]: a new URL, entered in the blob URL store. *)
Definition createObjectURL (file : File) : M nat :=
  fun w =>
    let b := blobs w in
    (Normal (nextId b),
     mkWorld (session w)
             (mkBlobStore ((nextId b, file) :: entries b) (S (nextId b)))
             (calls w)).

(** [URL.revokeObjectURL(url)]: the entry leaves the store. No handler of
    the component calls it. *)
Definition revokeObjectURL (url : nat) : M unit :=
  fun w =>
    let b := blobs w in
    (Normal tt,
     mkWorld (session w)
             (mkBlobStore (filter (fun e => negb (Nat.eqb (fst e) url)) (entries b))
                          (nextId b))
             (calls w)).

Definition handleFileSelect (file : File) : M unit :=
  setSelectedFile (Some file) ;;
  url <- createObjectURL file ;;
  setPreviewUrl (Some url) ;;
  setAppState PREVIEW.

Definition handleCameraCapture (file : File) : M unit :=
  setSelectedFile (Some file) ;;
  url <- createObjectURL file ;;
  setPreviewUrl (Some url) ;;
  setAppState PREVIEW.

Definition processFailedMessage : string :=
  "Failed to process image. Please try a different photo.".

Definition generateFailedMessage : string :=
  "Failed to generate image. Please try again.".

(** [handleGenerate], with the collaborator it calls as a parameter. The
    handler reads [selectedFile] and [prompt] once, from the render it was
    created in. *)
Definition handleGenerate (generateFutureSelf : Generator) : M unit :=
  s <- getSession ;;
  match selectedFile s, truthy (trim (prompt s)) with
  | Some file, true =>
      setAppState GENERATING ;;
      setError None ;;
      tryCatch
        (base64 <- tryCatch
                     (record (NormalizeCall file) ;;
                      await (resizeImageDefault file))
                     (fun resizeError => throw (newError processFailedMessage)) ;;
         record (GenerateCall base64 "image/jpeg" (prompt s)) ;;
         resultUrl <- await (generateFutureSelf base64 "image/jpeg" (prompt s)) ;;
         setGeneratedImage (Some resultUrl) ;;
         setAppState RESULT)
        (fun err =>
           message <- getMessage err ;;
           setError (Some (messageOr message generateFailedMessage)) ;;
           setAppState PREVIEW)
  | _, _ => ret tt
  end.

Definition resetApp : M unit :=
  setAppState IDLE ;;
  setSelectedFile None ;;
  setPreviewUrl None ;;
  setGeneratedImage None ;;
  setPrompt [] ;;
  setError None.

(** The initial values of the [useState] cells. *)
Definition initialSession : Session :=
  mkSession IDLE None None [] None None.

Definition initialWorld : World :=
  mkWorld initialSession (mkBlobStore [] 0) [].

(** What the user interface can raise. *)
Inductive Event : Type :=
| FileSelected (file : File)
| CameraRequested
| Captured (file : File)
| CaptureCancelled
| PromptEdited (text : JSString)
| GenerateClicked (service : Generator)
| BackClicked
| TryAnotherClicked.

(** The JSX of [App]: which callbacks are mounted in which state. The
    upload widget is rendered in [IDLE], the camera in [CAPTURING], the
    prompt form under [PREVIEW && previewUrl], nothing but a spinner in
    [GENERATING], the result panel under [RESULT && generatedImage]. The
    submit button is disabled for a blank prompt; [handleGenerate] has that
    guard itself, so the click is kept as offered. *)
Definition offered (e : Event) (s : Session) : bool :=
  match appState s, e with
  | IDLE, FileSelected _ => true
  | IDLE, CameraRequested => true
  | CAPTURING, Captured _ => true
  | CAPTURING, CaptureCancelled => true
  | PREVIEW, (PromptEdited _ | GenerateClicked _ | BackClicked) =>
      match previewUrl s with Some _ => true | None => false end
  | RESULT, TryAnotherClicked =>
      match generatedImage s with
      | Some u => negb (String.eqb u "")
      | None => false
      end
  | _, _ => false
  end.

Definition dispatch (e : Event) : M unit :=
  match e with
  | FileSelected file => handleFileSelect file
  | CameraRequested => setAppState CAPTURING
  | Captured file => handleCameraCapture file
  | CaptureCancelled => setAppState IDLE
  | PromptEdited text => setPrompt text
  | GenerateClicked service => handleGenerate service
  | BackClicked => resetApp
  | TryAnotherClicked => resetApp
  end.

(** The world after a sequence of events, each one offered when it is
    raised. *)
Fixpoint runEvents (es : list Event) (w : World) : option World :=
  match es with
  | [] => Some w
  | e :: rest =>
      if offered e (session w) then runEvents rest (exec (dispatch e) w)
      else None
  end.

Definition reachable (w : World) : Prop :=
  exists es, runEvents es initialWorld = Some w.

(** What holds of every world the interface can reach: an error is only
    held in [PREVIEW] and a result only in [RESULT]; the preview points into
    the blob URL store, whose serial numbers are below the next one. *)
Definition consistent (w : World) : Prop :=
  let s := session w in
  (error s <> None -> appState s = PREVIEW) /\
  (generatedImage s <> None -> appState s = RESULT) /\
  (forall u, previewUrl s = Some u -> live u (blobs w) = true) /\
  (forall e, In e (entries (blobs w)) -> (fst e < nextId (blobs w))%nat).

(** The world of a submission that passed the guard: of the session only
    the state, the result and the error are written; the calls made are
    logged. *)
Definition submitted (w : World) (st : AppState) (img : option string)
  (err : option string) (made : list Call) : World :=
  let s := session w in
  mkWorld (mkSession st (selectedFile s) (previewUrl s) (prompt s) img err)
          (blobs w) made.

End App.

(** ** Sample inputs *)

Module Samples.
Import Normalizer App.

Definition photo : File := mkFile "portrait.jpg" "image/jpeg" (Raster 4000 3000).
Definition selfie : File := mkFile "selfie.png" "image/png" (Raster 640 480).
Definition garbled : File := mkFile "notes.txt" "text/plain" Undecodable.

Definition astronaut : JSString := jsstr "playing astronaut".

(** A collaborator that rejects with a message, one that rejects with an
    object without message, one that rejects with [undefined], and one that
    returns a result. *)
Definition quotaExceeded : Generator :=
  fun _ _ _ => Rejected (newError "quota exceeded").
Definition succeeding : Generator :=
  fun _ _ _ => Resolved "data:image/png;base64,iVBORw0KGgo=".

(** The world after a photo was chosen, and after the prompt was typed. *)
Definition chosen : World := exec (handleFileSelect photo) initialWorld.
Definition reviewing : World := exec (setPrompt astronaut) chosen.

(** The world after a submission the collaborator rejected. *)
Definition rejected : World := exec (handleGenerate quotaExceeded) reviewing.

(** The world after a submission the collaborator answered. *)
Definition displayed : World := exec (handleGenerate succeeding) reviewing.

(** The events that lead to these worlds. *)
Definition toReviewing : list Event :=
  [FileSelected photo; PromptEdited astronaut].
Definition toRejected : list Event :=
  toReviewing ++ [GenerateClicked quotaExceeded].
Definition toDisplayed : list Event :=
  toReviewing ++ [GenerateClicked succeeding].

End Samples.

(** ** What is rendered *)

Module View.
Import Normalizer App.

(** [appState === AppState.X] *)
Definition appStateEqb (a b : AppState) : bool :=
  match a, b with
  | IDLE, IDLE | CAPTURING, CAPTURING | PREVIEW, PREVIEW
  | GENERATING, GENERATING | RESULT, RESULT => true
  | _, _ => false
  end.

(** Truthiness of a [string | null] cell. *)
Definition truthyCell (c : option string) : bool :=
  match c with
  | Some v => negb (String.eqb v "")
  | None => false
  end.

(** The five conditional blocks of the main card. The prompt form carries
    what depends on the session: the error banner, rendered under
    [error && ...], and the [disabled] flag of the submit button. *)
Inductive Panel : Type :=
| UploadPanel
| CameraPanel
| PromptPanel (src : nat) (banner : option string) (submitDisabled : bool)
| SpinnerPanel
| ResultPanel (src : string).

(** [{cond && (<div/>)}] *)
Definition shown (cond : bool) (p : Panel) : list Panel :=
  if cond then [p] else [].

(** The children of the main card, in the order of the JSX. *)
Definition render (s : Session) : list Panel :=
  shown (appStateEqb (appState s) IDLE) UploadPanel ++
  shown (appStateEqb (appState s) CAPTURING) CameraPanel ++
  match previewUrl s with
  | Some url =>
      shown (appStateEqb (appState s) PREVIEW)
            (PromptPanel url
                         (if truthyCell (error s) then error s else None)
                         (negb (truthy (trim (prompt s)))))
  | None => []
  end ++
  shown (appStateEqb (appState s) GENERATING) SpinnerPanel ++
  match generatedImage s with
  | Some url =>
      shown (appStateEqb (appState s) RESULT && truthyCell (generatedImage s))
            (ResultPanel url)
  | None => []
  end.

End View.

(** ** Accounting over runs *)

Module Trace.
Import Normalizer App.

(** What an object URL resolves to: the newest entry with that number. *)
Definition resolveObjectURL (url : nat) (b : BlobStore) : option File :=
  match find (fun e => Nat.eqb (fst e) url) (entries b) with
  | Some e => Some (snd e)
  | None => None
  end.

(** The session holds a file and a preview reference to that file. *)
Definition holdsImage (w : World) : Prop :=
  exists file url,
    selectedFile (session w) = Some file /\
    previewUrl (session w) = Some url /\
    resolveObjectURL url (blobs w) = Some file.

(** What each state of a reachable world carries. *)
Definition coherent (w : World) : Prop :=
  let s := session w in
  match appState s with
  | IDLE | CAPTURING =>
      selectedFile s = None /\ previewUrl s = None /\ prompt s = [] /\
      generatedImage s = None /\ error s = None
  | PREVIEW =>
      holdsImage w /\ generatedImage s = None /\ error s <> Some ""
  | GENERATING =>
      holdsImage w /\ generatedImage s = None /\ error s = None /\
      blank (prompt s) = false
  | RESULT =>
      holdsImage w /\ generatedImage s <> None /\ error s = None /\
      blank (prompt s) = false
  end.

(** Events that choose an image, and events that ask for a generation. *)
Definition selections (es : list Event) : nat :=
  List.length (filter (fun e => match e with
                           | FileSelected _ | Captured _ => true
                           | _ => false
                           end) es).

Definition submissions (es : list Event) : nat :=
  List.length (filter (fun e => match e with
                           | GenerateClicked _ => true
                           | _ => false
                           end) es).

(** Calls made to the collaborator. *)
Definition generateCalls (cs : list Call) : nat :=
  List.length (filter (fun c => match c with
                           | GenerateCall _ _ _ => true
                           | NormalizeCall _ => false
                           end) cs).

(** More sample inputs. *)
Definition banner : File := mkFile "banner.png" "image/png" (Raster 200 100).
Definition strip : File := mkFile "strip.png" "image/png" (Raster 5000 1).
Definition neverSettles : Generator := fun _ _ _ => Pending.
Definition emptyResult : Generator := fun _ _ _ => Resolved "".

End Trace.

(** ** Properties of the image normalizer *)

Section NormalizerFacts.
Import Normalizer.

(** [mathRoundDiv a b] is the integer nearest to [a / b]. *)
Lemma mathRoundDiv_nearest (a b : Z) :
  0 < b ->
  2 * b * mathRoundDiv a b <= 2 * a + b < 2 * b * (mathRoundDiv a b + 1).
Proof.
  intros Hb. unfold mathRoundDiv.
  pose proof (Z.div_mod (2 * a + b) (2 * b) ltac:(lia)) as Hdm.
  pose proof (Z.mod_pos_bound (2 * a + b) (2 * b) ltac:(lia)) as Hr.
  lia.
Qed.

Lemma mathRoundDiv_nonneg (a b : Z) : 0 <= a -> 0 < b -> 0 <= mathRoundDiv a b.
Proof.
  intros Ha Hb. unfold mathRoundDiv. apply Z.div_pos; lia.
Qed.

(** Scaling a part of [b] gives a part of the scale. *)
Lemma mathRoundDiv_le_scale (a b m : Z) :
  0 < b -> 0 <= m -> a <= b -> mathRoundDiv (a * m) b <= m.
Proof.
  intros Hb Hm Hab.
  pose proof (mathRoundDiv_nearest (a * m) b Hb) as [Hlo _].
  assert (a * m <= b * m) by nia.
  assert (2 * b * mathRoundDiv (a * m) b < 2 * b * (m + 1)) by nia.
  assert (mathRoundDiv (a * m) b < m + 1) by nia.
  lia.
Qed.

Lemma mathRoundDiv_exact (b m : Z) : 0 < b -> mathRoundDiv (b * m) b = m.
Proof.
  intros Hb.
  pose proof (mathRoundDiv_nearest (b * m) b Hb) as [Hlo Hhi].
  assert (mathRoundDiv (b * m) b < m + 1) by nia.
  assert (m < mathRoundDiv (b * m) b + 1) by nia.
  lia.
Qed.

(** The rounded value is within one half of the exact quotient. *)
Lemma mathRoundDiv_half (a b : Z) :
  0 < b -> 2 * Z.abs (mathRoundDiv a b * b - a) <= b.
Proof.
  intros Hb. pose proof (mathRoundDiv_nearest a b Hb). lia.
Qed.

Lemma resizeDims_within (w h mw mh : Z) :
  w <= mw -> h <= mh -> resizeDims w h mw mh = (w, h).
Proof.
  intros Hw Hh. unfold resizeDims.
  destruct (Z.gtb_spec w mw); [lia |].
  destruct (Z.gtb_spec h mh); [lia |].
  reflexivity.
Qed.

Lemma resizeImage_raster (file : File) (w h mw mh : Z) (q : Q) :
  content file = Raster w h ->
  resizeImage file mw mh q =
  Resolved (mkPayload (fst (resizeDims w h mw mh)) (snd (resizeDims w h mw mh)) q file).
Proof.
  intros Hc. unfold resizeImage. rewrite Hc.
  destruct (resizeDims w h mw mh); reflexivity.
Qed.

(** With one bound [m] for both axes the test [width > height] picks the
    axis with the larger ratio: the source's scaling is the specification's. *)
Lemma resizeDims_square_larger_ratio (w h m : Z) :
  0 <= w -> 0 <= h -> 0 < m ->
  resizeDims w h m m = scaleByLargerRatio w h m m.
Proof.
  intros Hw Hh Hm. unfold resizeDims, scaleByLargerRatio.
  destruct ((w >? m) || (h >? m)) eqn:Hover; [| reflexivity].
  destruct (Z.gtb_spec w h) as [Hgt | Hle];
    destruct (Z.geb_spec (w * m) (h * m)) as [Hge | Hlt];
    try reflexivity; try nia.
  assert (w = h) by nia. subst h.
  assert (0 < w).
  { apply orb_true_iff in Hover.
    destruct Hover as [H | H]; apply Z.gtb_lt in H; lia. }
  rewrite (Z.mul_comm w m) at 1. rewrite (Z.mul_comm w m).
  rewrite (Z.mul_comm m w). rewrite mathRoundDiv_exact by assumption.
  reflexivity.
Qed.

(** With one bound [m] for both axes, an image that exceeds it comes out
    within it: the longer side is [m], the other is its proportional value
    rounded to the nearest integer. *)
Lemma resizeDims_square (w h m : Z) :
  0 <= w -> 0 <= h -> 0 < m -> w > m \/ h > m ->
  withinBounds (resizeDims w h m m) m m /\
  0 <= fst (resizeDims w h m m) /\ 0 <= snd (resizeDims w h m m) /\
  (h < w ->
   fst (resizeDims w h m m) = m /\
   2 * Z.abs (snd (resizeDims w h m m) * w - h * m) <= w) /\
  (w <= h ->
   snd (resizeDims w h m m) = m /\
   2 * Z.abs (fst (resizeDims w h m m) * h - w * m) <= h).
Proof.
  intros Hw Hh Hm Hover. unfold resizeDims, withinBounds.
  assert (Hb : (w >? m) || (h >? m) = true).
  { apply orb_true_iff. destruct Hover; [left | right]; apply Z.gtb_lt; lia. }
  rewrite Hb.
  destruct (Z.gtb_spec w h) as [Hgt | Hle]; cbn [fst snd].
  - pose proof (mathRoundDiv_le_scale h w m ltac:(lia) ltac:(lia) ltac:(lia)).
    pose proof (mathRoundDiv_nonneg (h * m) w ltac:(nia) ltac:(lia)).
    pose proof (mathRoundDiv_half (h * m) w ltac:(lia)).
    repeat split; try lia.
  - assert (0 < h) by lia.
    pose proof (mathRoundDiv_le_scale w h m ltac:(lia) ltac:(lia) ltac:(lia)).
    pose proof (mathRoundDiv_nonneg (w * m) h ltac:(nia) ltac:(lia)).
    pose proof (mathRoundDiv_half (w * m) h ltac:(lia)).
    repeat split; try lia.
Qed.

(** C1, as stated, fails: with bounds 800 by 600 a 1000 by 900 image, which
    exceeds both, is scaled by 1000/800 and not by the larger ratio 900/600;
    the canvas is 800 by 720, higher than the bound of 600. *)
Lemma resize_unequal_bounds_overflow :
  (1000 > 800 \/ 900 > 600) /\
  resizeDims 1000 900 800 600 = (800, 720) /\
  scaleByLargerRatio 1000 900 800 600 = (667, 600) /\
  ~ withinBounds (resizeDims 1000 900 800 600) 800 600.
Proof.
  split; [left; lia |]. split; [reflexivity |]. split; [reflexivity |].
  unfold withinBounds. cbn. lia.
Qed.

(** C1, amended: when the two bounds are one value [m], as in the default
    1024 by 1024, and the sizes are in the range where the source's
    arithmetic is exact, an image that exceeds [m] is scaled by the single
    ratio max(width/m, height/m); the canvas is within the bound on both
    axes, its longer side is exactly [m] and its other side is the
    proportional value rounded to the nearest integer. *)
Theorem resize_square_bounds (file : File) (w h m : Z) (q : Q) :
  content file = Raster w h ->
  0 <= w -> 0 <= h -> 0 < m -> w > m \/ h > m ->
  inExactRange w m -> inExactRange h m ->
  exists p,
    resizeImage file m m q = Resolved p /\
    (canvasWidth p, canvasHeight p) = scaleByLargerRatio w h m m /\
    0 <= canvasWidth p <= m /\ 0 <= canvasHeight p <= m /\
    (h < w -> canvasWidth p = m /\ 2 * Z.abs (canvasHeight p * w - h * m) <= w) /\
    (w <= h -> canvasHeight p = m /\ 2 * Z.abs (canvasWidth p * h - w * m) <= h).
Proof.
  intros Hc Hw Hh Hm Hover _ _.
  eexists. split; [apply (resizeImage_raster _ _ _ _ _ _ Hc) |].
  cbn [canvasWidth canvasHeight].
  pose proof (resizeDims_square_larger_ratio w h m Hw Hh Hm) as Hspec.
  pose proof (resizeDims_square w h m Hw Hh Hm Hover) as (Hin & H0 & H1 & Hl & Hr).
  unfold withinBounds in Hin.
  split; [rewrite <- Hspec; destruct (resizeDims w h m m); reflexivity |].
  repeat split; try lia; try (apply Hl; assumption); try (apply Hr; assumption).
Qed.

Lemma resize_square_bounds_witness :
  exists p,
    resizeImage Samples.photo 1024 1024 defaultQuality = Resolved p /\
    (canvasWidth p, canvasHeight p) = scaleByLargerRatio 4000 3000 1024 1024 /\
    0 <= canvasWidth p <= 1024 /\ 0 <= canvasHeight p <= 1024 /\
    (3000 < 4000 ->
     canvasWidth p = 1024 /\ 2 * Z.abs (canvasHeight p * 4000 - 3000 * 1024) <= 4000) /\
    (4000 <= 3000 ->
     canvasHeight p = 1024 /\ 2 * Z.abs (canvasWidth p * 3000 - 4000 * 1024) <= 3000).
Proof.
  apply (resize_square_bounds Samples.photo 4000 3000 1024 defaultQuality).
  - reflexivity.
  - lia.
  - lia.
  - lia.
  - left. lia.
  - vm_compute. reflexivity.
  - vm_compute. reflexivity.
Defined.

(** C7: an image within both bounds keeps its dimensions, whatever the
    bounds are, and normalizing the outcome again changes nothing. *)
Theorem resize_within_bounds_unchanged (file : File) (w h mw mh : Z) (q : Q) :
  content file = Raster w h ->
  w <= mw -> h <= mh ->
  resizeDims w h mw mh = (w, h) /\
  resizeImage file mw mh q = Resolved (mkPayload w h q file) /\
  resizeDims (fst (resizeDims w h mw mh)) (snd (resizeDims w h mw mh)) mw mh
  = resizeDims w h mw mh.
Proof.
  intros Hc Hw Hh.
  pose proof (resizeDims_within w h mw mh Hw Hh) as Hd.
  split; [exact Hd |]. split.
  - rewrite (resizeImage_raster _ _ _ _ _ _ Hc), Hd. reflexivity.
  - rewrite Hd. cbn [fst snd]. exact Hd.
Qed.

Lemma resize_within_bounds_unchanged_witness :
  resizeDims 640 480 1024 1024 = (640, 480) /\
  resizeImage Samples.selfie 1024 1024 defaultQuality
  = Resolved (mkPayload 640 480 defaultQuality Samples.selfie) /\
  resizeDims (fst (resizeDims 640 480 1024 1024)) (snd (resizeDims 640 480 1024 1024))
             1024 1024
  = resizeDims 640 480 1024 1024.
Proof.
  apply (resize_within_bounds_unchanged Samples.selfie 640 480 1024 1024 defaultQuality).
  - reflexivity.
  - lia.
  - lia.
Defined.

(** C9: the scaled side is [Math.round] of the proportional value with no
    lower clamp: a 5000 by 1 image at the default bounds gets a canvas of
    height 0. *)
Theorem resize_extreme_aspect_zero_height :
  resizeDims 5000 1 defaultMaxWidth defaultMaxHeight
  = (defaultMaxWidth, mathRoundDiv (1 * defaultMaxWidth) 5000) /\
  mathRoundDiv (1 * defaultMaxWidth) 5000 = 0 /\
  (exists file w h p,
     content file = Raster w h /\ 0 < w /\ 0 < h /\
     resizeImageDefault file = Resolved p /\ canvasHeight p = 0).
Proof.
  split; [reflexivity |]. split; [reflexivity |].
  exists (mkFile "strip.png" "image/png" (Raster 5000 1)), 5000, 1.
  eexists. split; [reflexivity |]. split; [lia |]. split; [lia |].
  split; reflexivity.
Qed.

End NormalizerFacts.

(** ** Properties of [trim] *)

Section TrimFacts.

Lemma trimStart_nil_iff (s : JSString) : trimStart s = [] <-> blank s = true.
Proof.
  unfold blank. induction s as [| c r IH]; cbn.
  - tauto.
  - destruct (isWhiteSpace c); cbn.
    + exact IH.
    + split; discriminate.
Qed.

Lemma blank_rev (s : JSString) : blank (rev s) = blank s.
Proof.
  unfold blank. induction s as [| c r IH]; cbn.
  - reflexivity.
  - rewrite forallb_app, IH. cbn. rewrite andb_true_r. apply andb_comm.
Qed.

Lemma blank_trimStart (s : JSString) : blank (trimStart s) = blank s.
Proof.
  unfold blank. induction s as [| c r IH]; cbn.
  - reflexivity.
  - destruct (isWhiteSpace c) eqn:Hc; cbn.
    + exact IH.
    + rewrite Hc. reflexivity.
Qed.

Lemma trim_nil_iff (s : JSString) : trim s = [] <-> blank s = true.
Proof.
  unfold trim, trimEnd.
  rewrite <- (blank_trimStart s), <- (blank_rev (trimStart s)).
  rewrite <- trimStart_nil_iff.
  split; intros H.
  - apply (f_equal (@rev N)) in H. rewrite rev_involutive in H. exact H.
  - rewrite H. reflexivity.
Qed.

(** [!prompt.trim()] holds exactly for a blank prompt. *)
Lemma truthy_trim (s : JSString) : truthy (trim s) = negb (blank s).
Proof.
  destruct (blank s) eqn:Hb; cbn.
  - apply trim_nil_iff in Hb. rewrite Hb. reflexivity.
  - destruct (trim s) eqn:Ht; [| reflexivity].
    apply trim_nil_iff in Ht. congruence.
Qed.

End TrimFacts.

(** ** Properties of the handlers *)

Section HandlerFacts.
Import Normalizer App.
Local Open Scope handler_scope.

(** Unfolds a handler down to the world it builds. *)
Ltac run_handler :=
  unfold handleFileSelect, handleCameraCapture, resetApp, exec,
    setAppState, setSelectedFile, setPreviewUrl, setPrompt, setGeneratedImage,
    setError, createObjectURL, record, modifySession, getSession,
    tryCatch, getMessage, throw, await, bind, ret;
  cbn [session blobs calls appState selectedFile previewUrl prompt
       generatedImage error entries nextId fst snd].

(** [handleGenerate] when the guard does not pass. *)
Lemma handleGenerate_blocked (gen : Generator) (w : World) :
  selectedFile (session w) = None \/ blank (prompt (session w)) = true ->
  handleGenerate gen w = (Normal tt, w).
Proof.
  intros Hguard. unfold handleGenerate, bind, getSession, ret.
  rewrite truthy_trim.
  destruct Hguard as [Hf | Hp].
  - rewrite Hf. reflexivity.
  - rewrite Hp. destruct (selectedFile (session w)); reflexivity.
Qed.

(** [handleGenerate] when the guard passes, by how the two awaited calls
    settle. *)
Lemma handleGenerate_submitted (gen : Generator) (w : World) (file : File) :
  selectedFile (session w) = Some file ->
  blank (prompt (session w)) = false ->
  handleGenerate gen w =
  let s := session w in
  let normalize := (calls w ++ [NormalizeCall file])%list in
  match resizeImageDefault file with
  | Rejected _ =>
      (Normal tt,
       submitted w PREVIEW (generatedImage s) (Some processFailedMessage) normalize)
  | Pending =>
      (Suspended, submitted w GENERATING (generatedImage s) None normalize)
  | Resolved base64 =>
      let generate := (normalize ++ [GenerateCall base64 "image/jpeg" (prompt s)])%list in
      match gen base64 "image/jpeg" (prompt s) with
      | Resolved resultUrl =>
          (Normal tt, submitted w RESULT (Some resultUrl) None generate)
      | Rejected Nullish =>
          (Throw typeErrorOnNullish,
           submitted w GENERATING (generatedImage s) None generate)
      | Rejected (Thrown message) =>
          (Normal tt,
           submitted w PREVIEW (generatedImage s)
                     (Some (messageOr message generateFailedMessage)) generate)
      | Pending =>
          (Suspended, submitted w GENERATING (generatedImage s) None generate)
      end
  end.
Proof.
  intros Hf Hp. unfold handleGenerate, submitted.
  unfold bind at 1. unfold getSession at 1.
  rewrite truthy_trim, Hf, Hp. cbn [negb].
  run_handler. rewrite Hf.
  destruct (resizeImageDefault file) as [base64 | err |]; try reflexivity.
  destruct (gen base64 "image/jpeg" (prompt (session w))) as [resultUrl | [| message] |];
    reflexivity.
Qed.

Lemma handleFileSelect_world (file : File) (w : World) :
  handleFileSelect file w =
  let s := session w in
  (Normal tt,
   mkWorld (mkSession PREVIEW (Some file) (Some (nextId (blobs w))) (prompt s)
                      (generatedImage s) (error s))
           (mkBlobStore ((nextId (blobs w), file) :: entries (blobs w))
                        (S (nextId (blobs w))))
           (calls w)).
Proof. reflexivity. Qed.

Lemma handleCameraCapture_world (file : File) (w : World) :
  handleCameraCapture file w = handleFileSelect file w.
Proof. reflexivity. Qed.

Lemma handleCameraCapture_world_exec (file : File) (w : World) :
  exec (handleCameraCapture file) w = exec (handleFileSelect file) w.
Proof. reflexivity. Qed.

Lemma resetApp_world (w : World) :
  resetApp w = (Normal tt, mkWorld initialSession (blobs w) (calls w)).
Proof. reflexivity. Qed.

End HandlerFacts.

(** ** Submission and reset *)

Section SubmissionFacts.
Import Normalizer App.

(** C2: without a selected file, or with an empty or white-space-only
    prompt, [handleGenerate] returns at once: the world it leaves is the world
    it found, so no session field changed and neither [resizeImage] nor the
    generation collaborator was called. *)
Theorem submit_blocked_changes_nothing (gen : Generator) (w : World) :
  selectedFile (session w) = None \/ blank (prompt (session w)) = true ->
  handleGenerate gen w = (Normal tt, w) /\
  session (exec (handleGenerate gen) w) = session w /\
  calls (exec (handleGenerate gen) w) = calls w.
Proof.
  intros Hguard. unfold exec.
  rewrite (handleGenerate_blocked gen w Hguard). repeat split.
Qed.

Lemma submit_blocked_changes_nothing_witness :
  handleGenerate Samples.succeeding Samples.chosen = (Normal tt, Samples.chosen) /\
  session (exec (handleGenerate Samples.succeeding) Samples.chosen)
  = session Samples.chosen /\
  calls (exec (handleGenerate Samples.succeeding) Samples.chosen)
  = calls Samples.chosen.
Proof.
  apply (submit_blocked_changes_nothing Samples.succeeding Samples.chosen).
  right. reflexivity.
Defined.





(** C4: [resetApp] leaves the session at its initial values, whatever it
    was: state [IDLE], no file, no preview, empty prompt, no error, no
    result. *)
Theorem reset_returns_to_initial (w : World) :
  session (exec resetApp w) = initialSession /\
  session (exec resetApp w) = mkSession IDLE None None [] None None.
Proof.
  unfold exec. rewrite resetApp_world. split; reflexivity.
Qed.




End SubmissionFacts.

(** ** What the interface can reach *)

Section ReachableFacts.
Import Normalizer App.

Lemma live_cons (url n : nat) (file : File) (es : list (nat * File)) (next : nat) :
  live url (mkBlobStore ((n, file) :: es) next)
  = Nat.eqb n url || live url (mkBlobStore es next).
Proof. reflexivity. Qed.

(** Revoking is what takes a reference out of the store. *)
Lemma revokeObjectURL_releases (url : nat) (w : World) :
  live url (blobs (exec (revokeObjectURL url) w)) = false.
Proof.
  unfold exec, revokeObjectURL, live. cbn [snd blobs entries].
  induction (entries (blobs w)) as [| entry rest IH]; cbn; [reflexivity |].
  destruct (Nat.eqb (fst entry) url) eqn:Heq; cbn; [exact IH |].
  rewrite Heq. exact IH.
Qed.

(** No handler takes an entry out of the blob URL store. *)
Lemma live_dispatch (e : Event) (w : World) (url : nat) :
  live url (blobs w) = true -> live url (blobs (exec (dispatch e) w)) = true.
Proof.
  intros Hlive.
  assert (Hsel : forall file,
             live url (blobs (exec (handleFileSelect file) w)) = true).
  { intros file. unfold exec. rewrite handleFileSelect_world. cbn [snd blobs].
    rewrite live_cons. unfold live in *. cbn [entries].
    rewrite Hlive. apply orb_true_r. }
  destruct e as [file | | file | | text | gen | |]; cbn [dispatch];
    try exact Hlive; try apply Hsel.
  unfold exec.
  destruct (selectedFile (session w)) as [file |] eqn:Hf.
  - destruct (blank (prompt (session w))) eqn:Hp.
    + rewrite handleGenerate_blocked by (right; exact Hp). exact Hlive.
    + rewrite (handleGenerate_submitted gen w file Hf Hp). cbv zeta.
      destruct (resizeImageDefault file) as [base64 | err |]; try exact Hlive.
      destruct (gen base64 "image/jpeg" (prompt (session w))) as [resultUrl | [| message] |];
        exact Hlive.
  - rewrite handleGenerate_blocked by (left; exact Hf). exact Hlive.
Qed.

Lemma consistent_initial : consistent initialWorld.
Proof.
  unfold consistent. cbn. repeat split; try congruence; try discriminate.
  intros e [].
Qed.

Lemma consistent_outside_preview (w : World) :
  consistent w -> appState (session w) <> PREVIEW -> error (session w) = None.
Proof.
  intros (Herr & _) Hst. destruct (error (session w)) eqn:He; [| reflexivity].
  exfalso. apply Hst, Herr. discriminate.
Qed.

Lemma consistent_outside_result (w : World) :
  consistent w -> appState (session w) <> RESULT ->
  generatedImage (session w) = None.
Proof.
  intros (_ & Hgen & _) Hst.
  destruct (generatedImage (session w)) eqn:Hg; [| reflexivity].
  exfalso. apply Hst, Hgen. discriminate.
Qed.

Lemma consistent_select (w : World) (file : File) :
  consistent w ->
  appState (session w) <> PREVIEW -> appState (session w) <> RESULT ->
  consistent (exec (handleFileSelect file) w).
Proof.
  intros Hc Hp Hr.
  pose proof (consistent_outside_preview w Hc Hp) as He.
  pose proof (consistent_outside_result w Hc Hr) as Hg.
  destruct Hc as (_ & _ & _ & Hids).
  unfold exec. rewrite handleFileSelect_world. cbv zeta. cbn [snd].
  unfold consistent.
  cbn [session blobs appState error generatedImage previewUrl entries nextId].
  rewrite He, Hg. repeat split; try congruence.
  - intros u Hu. injection Hu as <-. rewrite live_cons, Nat.eqb_refl. reflexivity.
  - intros e [<- | Hin]; cbn [fst]; [lia |].
    specialize (Hids e Hin). lia.
Qed.

Lemma consistent_submit (gen : Generator) (w : World) :
  consistent w -> appState (session w) = PREVIEW ->
  consistent (exec (handleGenerate gen) w).
Proof.
  intros Hc Hst.
  pose proof (consistent_outside_result w Hc ltac:(congruence)) as Hg.
  unfold exec.
  destruct (selectedFile (session w)) as [file |] eqn:Hf;
    [destruct (blank (prompt (session w))) eqn:Hp |].
  - rewrite handleGenerate_blocked by (right; exact Hp). exact Hc.
  - rewrite (handleGenerate_submitted gen w file Hf Hp). cbv zeta.
    destruct Hc as (_ & _ & Hprev & Hids).
    destruct (resizeImageDefault file) as [base64 | err |];
      [destruct (gen base64 "image/jpeg" (prompt (session w)))
         as [resultUrl | [| message] |] | |];
      unfold consistent, submitted;
      cbn [snd session blobs appState error generatedImage previewUrl];
      rewrite ?Hg; repeat split; try congruence; try assumption.
  - rewrite handleGenerate_blocked by (left; exact Hf). exact Hc.
Qed.

Lemma consistent_reset (w : World) :
  consistent w -> consistent (exec resetApp w).
Proof.
  intros (_ & _ & _ & Hids). unfold exec. rewrite resetApp_world.
  unfold consistent. cbn. repeat split; try congruence; try discriminate.
  exact Hids.
Qed.

Lemma consistent_step (e : Event) (w : World) :
  consistent w -> offered e (session w) = true ->
  consistent (exec (dispatch e) w).
Proof.
  intros Hc Hoff. unfold offered in Hoff.
  destruct e as [file | | file | | text | gen | |]; cbn [dispatch];
    destruct (appState (session w)) eqn:Hst; try discriminate Hoff.
  - apply consistent_select; [exact Hc | congruence | congruence].
  - pose proof (consistent_outside_preview w Hc ltac:(congruence)) as He.
    pose proof (consistent_outside_result w Hc ltac:(congruence)) as Hg.
    destruct Hc as (_ & _ & Hprev & Hids).
    unfold consistent. cbn. rewrite He, Hg.
    repeat split; try congruence; assumption.
  - rewrite handleCameraCapture_world_exec.
    apply consistent_select; [exact Hc | congruence | congruence].
  - pose proof (consistent_outside_preview w Hc ltac:(congruence)) as He.
    pose proof (consistent_outside_result w Hc ltac:(congruence)) as Hg.
    destruct Hc as (_ & _ & Hprev & Hids).
    unfold consistent. cbn. rewrite He, Hg.
    repeat split; try congruence; assumption.
  - pose proof (consistent_outside_result w Hc ltac:(congruence)) as Hg.
    destruct Hc as (Herr & _ & Hprev & Hids).
    unfold consistent. cbn. rewrite Hg.
    repeat split; try congruence; assumption.
  - apply consistent_submit; assumption.
  - apply consistent_reset; assumption.
  - apply consistent_reset; assumption.
Qed.

Lemma consistent_runEvents (es : list Event) :
  forall w w', consistent w -> runEvents es w = Some w' -> consistent w'.
Proof.
  induction es as [| e rest IH]; intros w w' Hc Hrun; cbn in Hrun.
  - injection Hrun as <-. exact Hc.
  - destruct (offered e (session w)) eqn:Hoff; [| discriminate].
    apply (IH _ _ (consistent_step e w Hc Hoff) Hrun).
Qed.

Lemma reachable_consistent (w : World) : reachable w -> consistent w.
Proof.
  intros [es Hrun]. exact (consistent_runEvents es _ _ consistent_initial Hrun).
Qed.

End ReachableFacts.

(** ** Image selection, preview references and the result state *)

Section SelectionFacts.
Import Normalizer App.



(** C8, as stated, fails: the preview reference made for the first photo is
    still in the blob URL store after [resetApp] dropped it, and after a
    second selection replaced it. *)
Lemma preview_url_outlives_session :
  previewUrl (session Samples.reviewing) = Some 0%nat /\
  previewUrl (session (exec resetApp Samples.reviewing)) = None /\
  live 0 (blobs (exec resetApp Samples.reviewing)) = true /\
  previewUrl (session (exec (handleFileSelect Samples.selfie) Samples.reviewing))
  = Some 1%nat /\
  live 0 (blobs (exec (handleFileSelect Samples.selfie) Samples.reviewing)) = true.
Proof. repeat split. Qed.

(** C8, amended: when a new selection replaces the preview reference, or
    [resetApp] discards it, the session only drops its pointer; the reference
    is not revoked and stays in the blob URL store, and so it does under
    every event. *)
Theorem preview_url_is_never_revoked (w : World) (url : nat) (file : File) :
  reachable w ->
  previewUrl (session w) = Some url ->
  live url (blobs w) = true /\
  (previewUrl (session (exec (handleFileSelect file) w)) = Some (nextId (blobs w)) /\
   nextId (blobs w) <> url /\
   live url (blobs (exec (handleFileSelect file) w)) = true) /\
  (previewUrl (session (exec (handleCameraCapture file) w)) = Some (nextId (blobs w)) /\
   live url (blobs (exec (handleCameraCapture file) w)) = true) /\
  (previewUrl (session (exec resetApp w)) = None /\
   blobs (exec resetApp w) = blobs w) /\
  (forall e, live url (blobs (exec (dispatch e) w)) = true).
Proof.
  intros Hreach Hprev.
  destruct (reachable_consistent w Hreach) as (_ & _ & Hlive & Hids).
  specialize (Hlive url Hprev).
  assert (Hne : nextId (blobs w) <> url).
  { unfold live in Hlive. apply existsb_exists in Hlive.
    destruct Hlive as (entry & Hin & Heq). apply Nat.eqb_eq in Heq.
    specialize (Hids entry Hin). lia. }
  split; [exact Hlive |]. split; [| split; [| split]].
  - split; [reflexivity |]. split; [exact Hne |].
    exact (live_dispatch (FileSelected file) w url Hlive).
  - split; [reflexivity |].
    exact (live_dispatch (Captured file) w url Hlive).
  - split; reflexivity.
  - intros e. exact (live_dispatch e w url Hlive).
Qed.

Lemma preview_url_is_never_revoked_witness :
  live 0 (blobs Samples.reviewing) = true /\
  (previewUrl (session (exec (handleFileSelect Samples.selfie) Samples.reviewing))
   = Some (nextId (blobs Samples.reviewing)) /\
   nextId (blobs Samples.reviewing) <> 0%nat /\
   live 0 (blobs (exec (handleFileSelect Samples.selfie) Samples.reviewing)) = true) /\
  (previewUrl (session (exec (handleCameraCapture Samples.selfie) Samples.reviewing))
   = Some (nextId (blobs Samples.reviewing)) /\
   live 0 (blobs (exec (handleCameraCapture Samples.selfie) Samples.reviewing)) = true) /\
  (previewUrl (session (exec resetApp Samples.reviewing)) = None /\
   blobs (exec resetApp Samples.reviewing) = blobs Samples.reviewing) /\
  (forall e, live 0 (blobs (exec (dispatch e) Samples.reviewing)) = true).
Proof.
  apply (preview_url_is_never_revoked Samples.reviewing 0%nat Samples.selfie).
  - exists Samples.toReviewing. reflexivity.
  - reflexivity.
Defined.

(** C10: in every reachable world whose state is [RESULT] the error is
    empty. *)
Theorem result_state_has_no_error (w : World) :
  reachable w -> appState (session w) = RESULT -> error (session w) = None.
Proof.
  intros Hreach Hst.
  apply consistent_outside_preview.
  - exact (reachable_consistent w Hreach).
  - congruence.
Qed.

Lemma result_state_has_no_error_witness :
  error (session Samples.displayed) = None.
Proof.
  apply (result_state_has_no_error Samples.displayed).
  - exists Samples.toDisplayed. reflexivity.
  - reflexivity.
Defined.

End SelectionFacts.

(** ** More on the canvas dimensions *)

Section CanvasFacts.
Import Normalizer.

Lemma exceeds_true (w h mw mh : Z) :
  w > mw \/ h > mh -> (w >? mw) || (h >? mh) = true.
Proof.
  intros H. apply orb_true_iff.
  destruct H; [left | right]; apply Z.gtb_lt; lia.
Qed.

Lemma exceeds_cases (w h mw mh : Z) :
  (w > mw \/ h > mh) \/ (w <= mw /\ h <= mh).
Proof. lia. Qed.

(** Rounding a proportional value never passes the value it is a part of,
    when the scale shrinks. *)
Lemma mathRoundDiv_shrinks (a b m : Z) :
  0 <= a -> 0 < b -> 0 <= m <= b -> mathRoundDiv (a * m) b <= a.
Proof.
  intros Ha Hb Hm.
  pose proof (mathRoundDiv_nearest (a * m) b Hb) as [Hlo _].
  assert (a * m <= a * b) by nia.
  assert (2 * b * mathRoundDiv (a * m) b < 2 * b * (a + 1)) by nia.
  assert (mathRoundDiv (a * m) b < a + 1) by nia.
  lia.
Qed.

Lemma mathRoundDiv_grows (a b m : Z) :
  0 <= a -> 0 < b -> b <= m -> a <= mathRoundDiv (a * m) b.
Proof.
  intros Ha Hb Hm.
  pose proof (mathRoundDiv_nearest (a * m) b Hb) as [_ Hhi].
  assert (a * b <= a * m) by nia.
  assert (2 * b * a < 2 * b * (mathRoundDiv (a * m) b + 1)) by nia.
  assert (a < mathRoundDiv (a * m) b + 1) by nia.
  lia.
Qed.

Lemma mathRoundDiv_zero_iff (a b : Z) :
  0 <= a -> 0 < b -> (mathRoundDiv a b = 0 <-> 2 * a < b).
Proof.
  intros Ha Hb. pose proof (mathRoundDiv_nearest a b Hb) as [Hlo Hhi].
  pose proof (mathRoundDiv_nonneg a b Ha Hb).
  split; intros H0.
  - rewrite H0 in Hhi. lia.
  - assert (2 * b * mathRoundDiv a b < 2 * b * 1) by nia.
    assert (mathRoundDiv a b < 1) by nia. lia.
Qed.

(** With one bound for both axes every canvas is within the bound and no
    larger than the image. *)
Lemma resizeDims_square_shrinks (w h m : Z) :
  0 <= w -> 0 <= h -> 0 < m ->
  0 <= fst (resizeDims w h m m) <= Z.min w m /\
  0 <= snd (resizeDims w h m m) <= Z.min h m.
Proof.
  intros Hw Hh Hm.
  destruct (exceeds_cases w h m m) as [Hover | [Hlw Hlh]].
  - unfold resizeDims. rewrite (exceeds_true _ _ _ _ Hover).
    destruct (Z.gtb_spec w h) as [Hgt | Hle]; cbn [fst snd].
    + pose proof (mathRoundDiv_shrinks h w m ltac:(lia) ltac:(lia) ltac:(lia)).
      pose proof (mathRoundDiv_le_scale h w m ltac:(lia) ltac:(lia) ltac:(lia)).
      pose proof (mathRoundDiv_nonneg (h * m) w ltac:(nia) ltac:(lia)).
      lia.
    + pose proof (mathRoundDiv_shrinks w h m ltac:(lia) ltac:(lia) ltac:(lia)).
      pose proof (mathRoundDiv_le_scale w h m ltac:(lia) ltac:(lia) ltac:(lia)).
      pose proof (mathRoundDiv_nonneg (w * m) h ltac:(nia) ltac:(lia)).
      lia.
  - rewrite (resizeDims_within w h m m Hlw Hlh). cbn [fst snd]. lia.
Qed.

(** X1: with one bound [m] for both axes, as in the default call,
    [resizeImage] resolves for every raster file, of any size, with a canvas
    that is within [m] on both axes and on neither axis larger than the
    image. *)
Theorem resize_square_always_bounded (file : File) (w h m : Z) (q : Q) :
  content file = Raster w h ->
  0 <= w -> 0 <= h -> 0 < m ->
  exists p,
    resizeImage file m m q = Resolved p /\
    drawn p = file /\
    0 <= canvasWidth p <= m /\ 0 <= canvasHeight p <= m /\
    canvasWidth p <= w /\ canvasHeight p <= h.
Proof.
  intros Hc Hw Hh Hm.
  pose proof (resizeDims_square_shrinks w h m Hw Hh Hm) as [Hfst Hsnd].
  eexists. split; [apply (resizeImage_raster _ _ _ _ _ _ Hc) |].
  cbn [drawn canvasWidth canvasHeight]. repeat split; lia.
Qed.

Lemma resize_square_always_bounded_witness :
  exists p,
    resizeImage Samples.photo 1024 1024 defaultQuality = Resolved p /\
    drawn p = Samples.photo /\
    0 <= canvasWidth p <= 1024 /\ 0 <= canvasHeight p <= 1024 /\
    canvasWidth p <= 4000 /\ canvasHeight p <= 3000.
Proof.
  apply (resize_square_always_bounded Samples.photo 4000 3000 1024 defaultQuality).
  - vm_compute. reflexivity.
  - lia.
  - lia.
  - lia.
Defined.

(** X2: with one bound for both axes the dimension computation is
    idempotent on every image: the canvas of a canvas is that canvas. *)
Theorem resize_square_idempotent (w h m : Z) :
  0 <= w -> 0 <= h -> 0 < m ->
  resizeDims (fst (resizeDims w h m m)) (snd (resizeDims w h m m)) m m
  = resizeDims w h m m.
Proof.
  intros Hw Hh Hm.
  pose proof (resizeDims_square_shrinks w h m Hw Hh Hm) as [Hfst Hsnd].
  rewrite resizeDims_within by lia.
  destruct (resizeDims w h m m); reflexivity.
Qed.

Lemma resize_square_idempotent_witness :
  resizeDims (fst (resizeDims 4000 3000 1024 1024))
             (snd (resizeDims 4000 3000 1024 1024)) 1024 1024
  = resizeDims 4000 3000 1024 1024.
Proof.
  apply (resize_square_idempotent 4000 3000 1024); lia.
Defined.

(** X3: whatever the two bounds, with sizes in the range where the
    source's arithmetic is exact, a canvas side never passes the larger of
    the bounds, and an image that exceeds a bound gets a canvas with one side
    exactly on its bound. *)
Theorem resize_within_larger_bound (w h mw mh : Z) :
  0 <= w -> 0 <= h -> 0 < mw -> 0 < mh ->
  inExactRange w (Z.max mw mh) -> inExactRange h (Z.max mw mh) ->
  0 <= fst (resizeDims w h mw mh) <= Z.max mw mh /\
  0 <= snd (resizeDims w h mw mh) <= Z.max mw mh /\
  (w > mw \/ h > mh ->
   fst (resizeDims w h mw mh) = mw \/ snd (resizeDims w h mw mh) = mh).
Proof.
  intros Hw Hh Hmw Hmh _ _.
  destruct (exceeds_cases w h mw mh) as [Hover | [Hlw Hlh]].
  - unfold resizeDims. rewrite (exceeds_true _ _ _ _ Hover).
    destruct (Z.gtb_spec w h) as [Hgt | Hle]; cbn [fst snd].
    + pose proof (mathRoundDiv_le_scale h w mw ltac:(lia) ltac:(lia) ltac:(lia)).
      pose proof (mathRoundDiv_nonneg (h * mw) w ltac:(nia) ltac:(lia)).
      repeat split; lia.
    + pose proof (mathRoundDiv_le_scale w h mh ltac:(lia) ltac:(lia) ltac:(lia)).
      pose proof (mathRoundDiv_nonneg (w * mh) h ltac:(nia) ltac:(lia)).
      repeat split; lia.
  - rewrite (resizeDims_within w h mw mh Hlw Hlh). cbn [fst snd].
    repeat split; lia.
Qed.

Lemma resize_within_larger_bound_witness :
  0 <= fst (resizeDims 1000 900 800 600) <= Z.max 800 600 /\
  0 <= snd (resizeDims 1000 900 800 600) <= Z.max 800 600 /\
  (1000 > 800 \/ 900 > 600 ->
   fst (resizeDims 1000 900 800 600) = 800 \/ snd (resizeDims 1000 900 800 600) = 600).
Proof.
  apply (resize_within_larger_bound 1000 900 800 600);
    try lia; vm_compute; reflexivity.
Defined.

(** X4: a scaled side comes out as 0 exactly when its proportional value is
    below one half: the height of a wider-than-high image when
    [2 * height * maxWidth < width], the width of any other image when
    [2 * width * maxHeight < height]. *)
Theorem resize_side_vanishes_iff (w h mw mh : Z) :
  0 <= w -> 0 <= h -> 0 < mw -> 0 < mh ->
  w > mw \/ h > mh ->
  (h < w -> (snd (resizeDims w h mw mh) = 0 <-> 2 * (h * mw) < w)) /\
  (w <= h -> (fst (resizeDims w h mw mh) = 0 <-> 2 * (w * mh) < h)).
Proof.
  intros Hw Hh Hmw Hmh Hover.
  unfold resizeDims. rewrite (exceeds_true _ _ _ _ Hover).
  split; intros Hcmp.
  - destruct (Z.gtb_spec w h) as [_ | Hle]; [| lia]. cbn [snd].
    apply mathRoundDiv_zero_iff; nia.
  - destruct (Z.gtb_spec w h) as [Hgt | _]; [lia |]. cbn [fst].
    apply mathRoundDiv_zero_iff; nia.
Qed.

Lemma resize_side_vanishes_iff_witness :
  (1 < 5000 -> (snd (resizeDims 5000 1 1024 1024) = 0 <-> 2 * (1 * 1024) < 5000)) /\
  (5000 <= 1 -> (fst (resizeDims 5000 1 1024 1024) = 0 <-> 2 * (5000 * 1024) < 1)).
Proof.
  apply (resize_side_vanishes_iff 5000 1 1024 1024); lia.
Defined.

(** X5: with unequal bounds the computation can enlarge. A wider-than-high
    image narrower than [maxWidth] but higher than [maxHeight] is stretched
    to [maxWidth]; its canvas is no lower than the image and still above
    [maxHeight]. Likewise for an image no wider than high, lower than
    [maxHeight] but wider than [maxWidth]. *)
Theorem resize_unequal_bounds_enlarges (w h mw mh : Z) :
  0 < w -> 0 < h -> 0 < mw -> 0 < mh ->
  (h < w -> w < mw -> mh < h ->
   fst (resizeDims w h mw mh) = mw /\
   w < fst (resizeDims w h mw mh) /\
   h <= snd (resizeDims w h mw mh) /\
   mh < snd (resizeDims w h mw mh)) /\
  (w <= h -> h < mh -> mw < w ->
   snd (resizeDims w h mw mh) = mh /\
   h < snd (resizeDims w h mw mh) /\
   w <= fst (resizeDims w h mw mh) /\
   mw < fst (resizeDims w h mw mh)).
Proof.
  intros Hw Hh Hmw Hmh. unfold resizeDims. split.
  - intros Hcmp Hnarrow Hhigh.
    rewrite (exceeds_true w h mw mh) by lia.
    destruct (Z.gtb_spec w h) as [_ | Hle]; [| lia]. cbn [fst snd].
    pose proof (mathRoundDiv_grows h w mw ltac:(lia) ltac:(lia) ltac:(lia)).
    lia.
  - intros Hcmp Hlow Hwide.
    rewrite (exceeds_true w h mw mh) by lia.
    destruct (Z.gtb_spec w h) as [Hgt | _]; [lia |]. cbn [fst snd].
    pose proof (mathRoundDiv_grows w h mh ltac:(lia) ltac:(lia) ltac:(lia)).
    lia.
Qed.

Lemma resize_unequal_bounds_enlarges_witness :
  fst (resizeDims 200 100 1000 50) = 1000 /\
  200 < fst (resizeDims 200 100 1000 50) /\
  100 <= snd (resizeDims 200 100 1000 50) /\
  50 < snd (resizeDims 200 100 1000 50).
Proof.
  apply (proj1 (resize_unequal_bounds_enlarges 200 100 1000 50
                  ltac:(lia) ltac:(lia) ltac:(lia) ltac:(lia))); lia.
Defined.

End CanvasFacts.

(** ** More on a submission *)

Section SubmitFacts.
Import Normalizer App View Trace.

Lemma nothing_offered_while_generating (s : Session) (e : Event) :
  appState s = GENERATING -> offered e s = false.
Proof.
  intros Hst. unfold offered. rewrite Hst. destruct e; reflexivity.
Qed.

Lemma nothing_offered_stays (w : World) :
  (forall e, offered e (session w) = false) ->
  forall es w', runEvents es w = Some w' -> w' = w.
Proof.
  intros Hdead [| e rest] w' Hrun; cbn in Hrun.
  - congruence.
  - rewrite Hdead in Hrun. discriminate.
Qed.

Lemma calls_grow (cs : list Call) (c : Call) (more : list Call) :
  (cs ++ c :: more)%list <> cs.
Proof.
  intros Heq. apply (f_equal (@List.length Call)) in Heq.
  rewrite length_app in Heq. cbn in Heq. lia.
Qed.

(** The calls a submission that passed the guard makes. *)
Lemma handleGenerate_calls (gen : Generator) (w : World) (file : File) :
  selectedFile (session w) = Some file ->
  blank (prompt (session w)) = false ->
  calls (exec (handleGenerate gen) w) =
  (calls w ++
   NormalizeCall file ::
   match resizeImageDefault file with
   | Resolved base64 => [GenerateCall base64 "image/jpeg" (prompt (session w))]
   | _ => []
   end)%list.
Proof.
  intros Hf Hp. unfold exec.
  rewrite (handleGenerate_submitted gen w file Hf Hp). cbv zeta.
  destruct (resizeImageDefault file) as [base64 | err |]; try reflexivity.
  destruct (gen base64 "image/jpeg" (prompt (session w))) as [resultUrl | [| message] |];
    cbn [snd submitted calls]; rewrite <- app_assoc; reflexivity.
Qed.

(** X6: a submission whose two awaited calls resolve returns with the state
    [RESULT], the returned URL stored in place of any earlier result and the
    error empty; file, preview and prompt are kept. *)
Theorem successful_submit_stores_result
  (gen : Generator) (w : World) (file : File) (base64 : Payload) (url : string) :
  selectedFile (session w) = Some file ->
  blank (prompt (session w)) = false ->
  resizeImageDefault file = Resolved base64 ->
  gen base64 "image/jpeg" (prompt (session w)) = Resolved url ->
  fst (handleGenerate gen w) = Normal tt /\
  session (exec (handleGenerate gen) w)
  = mkSession RESULT (Some file) (previewUrl (session w)) (prompt (session w))
              (Some url) None.
Proof.
  intros Hf Hp Hr Hg. unfold exec.
  rewrite (handleGenerate_submitted gen w file Hf Hp). cbv zeta.
  rewrite Hr, Hg. unfold submitted. rewrite Hf. split; reflexivity.
Qed.

Lemma successful_submit_stores_result_witness :
  fst (handleGenerate Samples.succeeding Samples.rejected) = Normal tt /\
  session (exec (handleGenerate Samples.succeeding) Samples.rejected)
  = mkSession RESULT (Some Samples.photo) (previewUrl (session Samples.rejected))
              (prompt (session Samples.rejected))
              (Some "data:image/png;base64,iVBORw0KGgo=") None.
Proof.
  apply (successful_submit_stores_result Samples.succeeding Samples.rejected
           Samples.photo
           (mkPayload 1024 768 defaultQuality Samples.photo)).
  - vm_compute. reflexivity.
  - vm_compute. reflexivity.
  - vm_compute. reflexivity.
  - vm_compute. reflexivity.
Defined.

(** X7: a submission that passed the guard calls [resizeImage] on the
    selected file first and exactly once; it calls the collaborator exactly
    once, after that, when [resizeImage] resolved, and not at all otherwise.
    The collaborator gets the payload of [resizeImage], the mime type
    [image/jpeg] and the prompt as typed, not trimmed. *)
Theorem submit_call_protocol (gen : Generator) (w : World) (file : File) :
  selectedFile (session w) = Some file ->
  blank (prompt (session w)) = false ->
  (forall base64,
     resizeImageDefault file = Resolved base64 ->
     calls (exec (handleGenerate gen) w)
     = (calls w ++ [NormalizeCall file;
                    GenerateCall base64 "image/jpeg" (prompt (session w))])%list) /\
  ((forall base64, resizeImageDefault file <> Resolved base64) ->
     calls (exec (handleGenerate gen) w) = (calls w ++ [NormalizeCall file])%list).
Proof.
  intros Hf Hp. rewrite (handleGenerate_calls gen w file Hf Hp). split.
  - intros base64 Hr. rewrite Hr. reflexivity.
  - intros Hno. destruct (resizeImageDefault file) as [base64 | err |];
      try reflexivity.
    exfalso. apply (Hno base64). reflexivity.
Qed.

Lemma submit_call_protocol_witness :
  calls (exec (handleGenerate Samples.quotaExceeded)
              (exec (setPrompt (jsstr " playing ")) Samples.chosen))
  = [NormalizeCall Samples.photo;
     GenerateCall (mkPayload 1024 768 defaultQuality Samples.photo) "image/jpeg"
                  (jsstr " playing ")] /\
  calls (exec (handleGenerate Samples.quotaExceeded)
              (exec (handleFileSelect Samples.garbled) Samples.reviewing))
  = [NormalizeCall Samples.garbled].
Proof.
  split.
  - refine (proj1 (submit_call_protocol Samples.quotaExceeded
                     (exec (setPrompt (jsstr " playing ")) Samples.chosen)
                     Samples.photo eq_refl eq_refl) _ eq_refl).
  - refine (proj2 (submit_call_protocol Samples.quotaExceeded
                     (exec (handleFileSelect Samples.garbled) Samples.reviewing)
                     Samples.garbled eq_refl eq_refl) _).
    intros base64. discriminate.
Defined.

(** X8: for every raster file, of any size, a submission that passed the
    guard reaches the collaborator, and the payload it hands over has a
    canvas within 1024 by 1024, no larger than the image, at quality 0.8. *)
Theorem submit_sends_bounded_payload
  (gen : Generator) (w : World) (file : File) (iw ih : Z) :
  selectedFile (session w) = Some file ->
  blank (prompt (session w)) = false ->
  content file = Raster iw ih -> 0 <= iw -> 0 <= ih ->
  exists base64,
    calls (exec (handleGenerate gen) w)
    = (calls w ++ [NormalizeCall file;
                   GenerateCall base64 "image/jpeg" (prompt (session w))])%list /\
    drawn base64 = file /\ jpegQuality base64 = (8 # 10)%Q /\
    0 <= canvasWidth base64 <= Z.min iw 1024 /\
    0 <= canvasHeight base64 <= Z.min ih 1024.
Proof.
  intros Hf Hp Hc Hiw Hih.
  pose proof (resizeDims_square_shrinks iw ih 1024 Hiw Hih ltac:(lia)) as [Hw Hh].
  pose proof (resizeImage_raster file iw ih 1024 1024 defaultQuality Hc) as Hr.
  eexists. split.
  - rewrite (handleGenerate_calls gen w file Hf Hp).
    unfold resizeImageDefault, defaultMaxWidth, defaultMaxHeight.
    rewrite Hr. reflexivity.
  - cbn [drawn jpegQuality canvasWidth canvasHeight]. repeat split; lia.
Qed.

Lemma submit_sends_bounded_payload_witness :
  exists base64,
    calls (exec (handleGenerate Samples.succeeding) Samples.reviewing)
    = (calls Samples.reviewing
       ++ [NormalizeCall Samples.photo;
           GenerateCall base64 "image/jpeg" (prompt (session Samples.reviewing))])%list /\
    drawn base64 = Samples.photo /\ jpegQuality base64 = (8 # 10)%Q /\
    0 <= canvasWidth base64 <= Z.min 4000 1024 /\
    0 <= canvasHeight base64 <= Z.min 3000 1024.
Proof.
  apply (submit_sends_bounded_payload Samples.succeeding Samples.reviewing
           Samples.photo 4000 3000).
  - vm_compute. reflexivity.
  - vm_compute. reflexivity.
  - vm_compute. reflexivity.
  - lia.
  - lia.
Defined.

(** X9: however it ends, [handleGenerate] writes neither the selected file,
    the preview reference nor the prompt, leaves the blob URL store alone,
    and only adds to the calls made, two at most. *)
Theorem submit_frame (gen : Generator) (w : World) :
  selectedFile (session (exec (handleGenerate gen) w)) = selectedFile (session w) /\
  previewUrl (session (exec (handleGenerate gen) w)) = previewUrl (session w) /\
  prompt (session (exec (handleGenerate gen) w)) = prompt (session w) /\
  blobs (exec (handleGenerate gen) w) = blobs w /\
  exists more,
    calls (exec (handleGenerate gen) w) = (calls w ++ more)%list /\
    (List.length more <= 2)%nat.
Proof.
  destruct (selectedFile (session w)) as [file |] eqn:Hf;
    [destruct (blank (prompt (session w))) eqn:Hp |].
  - unfold exec. rewrite handleGenerate_blocked by (right; exact Hp).
    cbn [snd]. repeat split; try assumption.
    exists []. rewrite app_nil_r. split; [reflexivity | cbn; lia].
  - rewrite (handleGenerate_calls gen w file Hf Hp).
    unfold exec. rewrite (handleGenerate_submitted gen w file Hf Hp). cbv zeta.
    assert (Hmore : exists more,
               (calls w ++ NormalizeCall file ::
                  match resizeImageDefault file with
                  | Resolved base64 =>
                      [GenerateCall base64 "image/jpeg" (prompt (session w))]
                  | _ => []
                  end)%list = (calls w ++ more)%list /\
               (List.length more <= 2)%nat).
    { eexists. split; [reflexivity |].
      destruct (resizeImageDefault file); cbn; lia. }
    destruct (resizeImageDefault file) as [base64 | err |];
      [destruct (gen base64 "image/jpeg" (prompt (session w)))
         as [resultUrl | [| message] |] | |];
      unfold submitted; cbn [snd session blobs selectedFile previewUrl prompt];
      repeat split; assumption.
  - unfold exec. rewrite handleGenerate_blocked by (left; exact Hf).
    cbn [snd]. repeat split; try assumption.
    exists []. rewrite app_nil_r. split; [reflexivity | cbn; lia].
Qed.

(** X10: while the collaborator has not settled, the handler stays
    suspended with the state [GENERATING] and the error cleared, and the
    interface offers no event: the submission cannot be cancelled, edited or
    reset. *)
Theorem pending_submit_blocks_interface
  (gen : Generator) (w : World) (file : File) (base64 : Payload) :
  selectedFile (session w) = Some file ->
  blank (prompt (session w)) = false ->
  resizeImageDefault file = Resolved base64 ->
  gen base64 "image/jpeg" (prompt (session w)) = Pending ->
  fst (handleGenerate gen w) = Suspended /\
  appState (session (exec (handleGenerate gen) w)) = GENERATING /\
  error (session (exec (handleGenerate gen) w)) = None /\
  (forall e, offered e (session (exec (handleGenerate gen) w)) = false) /\
  (forall es w',
     runEvents es (exec (handleGenerate gen) w) = Some w' ->
     w' = exec (handleGenerate gen) w).
Proof.
  intros Hf Hp Hr Hg.
  assert (Hrun : handleGenerate gen w =
                 (Suspended,
                  submitted w GENERATING (generatedImage (session w)) None
                    ((calls w ++ [NormalizeCall file])
                     ++ [GenerateCall base64 "image/jpeg" (prompt (session w))])%list)).
  { rewrite (handleGenerate_submitted gen w file Hf Hp). cbv zeta.
    rewrite Hr, Hg. reflexivity. }
  unfold exec. rewrite Hrun. cbn [fst snd].
  assert (Hdead : forall e,
             offered e (session (submitted w GENERATING (generatedImage (session w)) None
                ((calls w ++ [NormalizeCall file])
                 ++ [GenerateCall base64 "image/jpeg" (prompt (session w))])%list))
             = false).
  { intros e. apply nothing_offered_while_generating. reflexivity. }
  repeat split; try exact Hdead.
  exact (nothing_offered_stays _ Hdead).
Qed.

Lemma pending_submit_blocks_interface_witness :
  fst (handleGenerate neverSettles Samples.reviewing) = Suspended /\
  appState (session (exec (handleGenerate neverSettles) Samples.reviewing))
  = GENERATING /\
  error (session (exec (handleGenerate neverSettles) Samples.reviewing)) = None /\
  (forall e,
     offered e (session (exec (handleGenerate neverSettles) Samples.reviewing))
     = false) /\
  (forall es w',
     runEvents es (exec (handleGenerate neverSettles) Samples.reviewing) = Some w' ->
     w' = exec (handleGenerate neverSettles) Samples.reviewing).
Proof.
  apply (pending_submit_blocks_interface neverSettles Samples.reviewing Samples.photo
           (mkPayload 1024 768 defaultQuality Samples.photo)).
  - vm_compute. reflexivity.
  - vm_compute. reflexivity.
  - vm_compute. reflexivity.
  - vm_compute. reflexivity.
Defined.

(** X11: [handleGenerate] leaves the world as it found it exactly when the
    guard stops it: with a file selected and a prompt that is not blank, it
    always acts. *)
Theorem submit_is_noop_iff_blocked (gen : Generator) (w : World) :
  handleGenerate gen w = (Normal tt, w) <->
  selectedFile (session w) = None \/ blank (prompt (session w)) = true.
Proof.
  split.
  - intros Hnoop.
    destruct (selectedFile (session w)) as [file |] eqn:Hf; [| left; reflexivity].
    destruct (blank (prompt (session w))) eqn:Hp; [right; reflexivity |].
    exfalso.
    pose proof (handleGenerate_calls gen w file Hf Hp) as Hcalls.
    unfold exec in Hcalls. rewrite Hnoop in Hcalls. cbn [snd] in Hcalls.
    symmetry in Hcalls. exact (calls_grow _ _ _ Hcalls).
  - apply handleGenerate_blocked.
Qed.

(** X12: when the collaborator resolves with an empty URL the session
    enters [RESULT], where the result panel is rendered under
    [generatedImage] being truthy: nothing is rendered and no event is
    offered. *)
Theorem empty_result_renders_nothing
  (gen : Generator) (w : World) (file : File) (base64 : Payload) :
  selectedFile (session w) = Some file ->
  blank (prompt (session w)) = false ->
  resizeImageDefault file = Resolved base64 ->
  gen base64 "image/jpeg" (prompt (session w)) = Resolved "" ->
  fst (handleGenerate gen w) = Normal tt /\
  appState (session (exec (handleGenerate gen) w)) = RESULT /\
  render (session (exec (handleGenerate gen) w)) = [] /\
  (forall e, offered e (session (exec (handleGenerate gen) w)) = false).
Proof.
  intros Hf Hp Hr Hg. unfold exec.
  rewrite (handleGenerate_submitted gen w file Hf Hp). cbv zeta.
  rewrite Hr, Hg. unfold submitted. cbn [fst snd session appState].
  repeat split.
  - unfold render. cbn. destruct (previewUrl (session w)); reflexivity.
  - intros e. destruct e; reflexivity.
Qed.

Lemma empty_result_renders_nothing_witness :
  fst (handleGenerate emptyResult Samples.reviewing) = Normal tt /\
  appState (session (exec (handleGenerate emptyResult) Samples.reviewing)) = RESULT /\
  render (session (exec (handleGenerate emptyResult) Samples.reviewing)) = [] /\
  (forall e,
     offered e (session (exec (handleGenerate emptyResult) Samples.reviewing))
     = false).
Proof.
  apply (empty_result_renders_nothing emptyResult Samples.reviewing Samples.photo
           (mkPayload 1024 768 defaultQuality Samples.photo)).
  - vm_compute. reflexivity.
  - vm_compute. reflexivity.
  - vm_compute. reflexivity.
  - vm_compute. reflexivity.
Defined.

End SubmitFacts.

(** ** More on what the interface can reach *)

Section RunFacts.
Import Normalizer App View Trace.

Lemma messageOr_nonempty (message : option string) (fallback : string) :
  fallback <> "" -> messageOr message fallback <> "".
Proof.
  intros Hne. unfold messageOr. destruct message as [m |]; [| exact Hne].
  destruct (String.eqb_spec m ""); assumption.
Qed.

Lemma holdsImage_frame (w w' : World) :
  selectedFile (session w') = selectedFile (session w) ->
  previewUrl (session w') = previewUrl (session w) ->
  blobs w' = blobs w ->
  holdsImage w -> holdsImage w'.
Proof.
  intros Hf Hu Hb (file & url & Hfile & Hurl & Hres).
  exists file, url. rewrite Hf, Hu, Hb. repeat split; assumption.
Qed.

Lemma coherent_initial : coherent initialWorld.
Proof. unfold coherent. cbn. repeat split. Qed.

Lemma coherent_select (w : World) (file : File) :
  generatedImage (session w) = None -> error (session w) = None ->
  coherent (exec (handleFileSelect file) w).
Proof.
  intros Hg He. unfold exec. rewrite handleFileSelect_world. cbv zeta.
  unfold coherent. cbn [snd session appState generatedImage error].
  rewrite Hg, He. repeat split; try discriminate.
  exists file, (nextId (blobs w)). repeat split.
  unfold resolveObjectURL. cbn. rewrite Nat.eqb_refl. reflexivity.
Qed.

Lemma coherent_submit (gen : Generator) (w : World) :
  coherent w -> appState (session w) = PREVIEW ->
  coherent (exec (handleGenerate gen) w).
Proof.
  intros Hc Hst. pose proof Hc as Hc'. unfold coherent in Hc'.
  rewrite Hst in Hc'. destruct Hc' as (Himg & Hg & He).
  unfold exec.
  destruct (selectedFile (session w)) as [file |] eqn:Hf;
    [destruct (blank (prompt (session w))) eqn:Hp |].
  - rewrite handleGenerate_blocked by (right; exact Hp). exact Hc.
  - rewrite (handleGenerate_submitted gen w file Hf Hp). cbv zeta.
    assert (Hkeep : forall st img err made,
               holdsImage (submitted w st img err made)).
    { intros st img err made.
      apply (holdsImage_frame w); try reflexivity; assumption. }
    destruct (resizeImageDefault file) as [base64 | err |];
      [destruct (gen base64 "image/jpeg" (prompt (session w)))
         as [resultUrl | [| message] |] | |];
      unfold coherent; cbn [snd]; unfold submitted at 1;
      cbn [session appState generatedImage error prompt];
      repeat split; try apply Hkeep; try assumption; try discriminate.
    + intros Heq. injection Heq as Heq.
      exact (messageOr_nonempty message generateFailedMessage ltac:(discriminate) Heq).
  - rewrite handleGenerate_blocked by (left; exact Hf). exact Hc.
Qed.

Lemma coherent_step (e : Event) (w : World) :
  coherent w -> offered e (session w) = true ->
  coherent (exec (dispatch e) w).
Proof.
  intros Hc Hoff. pose proof Hc as Hc'. unfold coherent in Hc'.
  unfold offered in Hoff.
  destruct e as [file | | file | | text | gen | |]; cbn [dispatch];
    destruct (appState (session w)) eqn:Hst; try discriminate Hoff.
  - destruct Hc' as (_ & _ & _ & Hg & He). apply coherent_select; assumption.
  - unfold coherent. cbn. exact Hc'.
  - destruct Hc' as (_ & _ & _ & Hg & He).
    rewrite handleCameraCapture_world_exec. apply coherent_select; assumption.
  - unfold coherent. cbn. exact Hc'.
  - destruct Hc' as (Himg & Hg & He).
    unfold coherent. cbn. rewrite Hst. repeat split; assumption.
  - apply coherent_submit; assumption.
  - unfold exec. rewrite resetApp_world. unfold coherent. cbn. repeat split.
  - unfold exec. rewrite resetApp_world. unfold coherent. cbn. repeat split.
Qed.

Lemma coherent_runEvents (es : list Event) :
  forall w w', coherent w -> runEvents es w = Some w' -> coherent w'.
Proof.
  induction es as [| e rest IH]; intros w w' Hc Hrun; cbn in Hrun.
  - injection Hrun as <-. exact Hc.
  - destruct (offered e (session w)) eqn:Hoff; [| discriminate].
    apply (IH _ _ (coherent_step e w Hc Hoff) Hrun).
Qed.

Lemma reachable_coherent (w : World) : reachable w -> coherent w.
Proof.
  intros [es Hrun]. exact (coherent_runEvents es _ _ coherent_initial Hrun).
Qed.

Lemma handleGenerate_blobs (gen : Generator) (w : World) :
  blobs (exec (handleGenerate gen) w) = blobs w.
Proof.
  unfold exec.
  destruct (selectedFile (session w)) as [file |] eqn:Hf;
    [destruct (blank (prompt (session w))) eqn:Hp |].
  - rewrite handleGenerate_blocked by (right; exact Hp). reflexivity.
  - rewrite (handleGenerate_submitted gen w file Hf Hp). cbv zeta.
    destruct (resizeImageDefault file) as [base64 | err |];
      [destruct (gen base64 "image/jpeg" (prompt (session w)))
         as [resultUrl | [| message] |] | |];
      reflexivity.
  - rewrite handleGenerate_blocked by (left; exact Hf). reflexivity.
Qed.

Lemma generateCalls_app (cs more : list Call) :
  generateCalls (cs ++ more) = (generateCalls cs + generateCalls more)%nat.
Proof.
  unfold generateCalls. rewrite filter_app, length_app. reflexivity.
Qed.

Lemma handleGenerate_generateCalls (gen : Generator) (w : World) :
  (generateCalls (calls (exec (handleGenerate gen) w))
   <= generateCalls (calls w) + 1)%nat.
Proof.
  destruct (selectedFile (session w)) as [file |] eqn:Hf;
    [destruct (blank (prompt (session w))) eqn:Hp |].
  - unfold exec. rewrite handleGenerate_blocked by (right; exact Hp).
    cbn [snd]. lia.
  - rewrite (handleGenerate_calls gen w file Hf Hp), generateCalls_app.
    destruct (resizeImageDefault file); cbn; lia.
  - unfold exec. rewrite handleGenerate_blocked by (left; exact Hf).
    cbn [snd]. lia.
Qed.

(** The store and the calls after one event. *)
Lemma dispatch_accounts (e : Event) (w : World) :
  (List.length (entries (blobs (exec (dispatch e) w)))
   = List.length (entries (blobs w)) + selections [e])%nat /\
  (nextId (blobs (exec (dispatch e) w)) = nextId (blobs w) + selections [e])%nat /\
  (generateCalls (calls (exec (dispatch e) w))
   <= generateCalls (calls w) + submissions [e])%nat.
Proof.
  destruct e as [file | | file | | text | gen | |]; cbn [dispatch];
    try (cbv [exec handleFileSelect handleCameraCapture resetApp setAppState
              setSelectedFile setPreviewUrl setPrompt setGeneratedImage setError
              createObjectURL modifySession bind ret selections submissions
              generateCalls];
         cbn; repeat split; lia).
  rewrite handleGenerate_blobs.
  pose proof (handleGenerate_generateCalls gen w).
  unfold selections, submissions. cbn [filter List.length]. repeat split; lia.
Qed.

Lemma runEvents_accounts (es : list Event) :
  forall w w',
    runEvents es w = Some w' ->
    (List.length (entries (blobs w')) = List.length (entries (blobs w)) + selections es)%nat /\
    (nextId (blobs w') = nextId (blobs w) + selections es)%nat /\
    (generateCalls (calls w') <= generateCalls (calls w) + submissions es)%nat.
Proof.
  induction es as [| e rest IH]; intros w w' Hrun; cbn in Hrun.
  - injection Hrun as <-. cbn. repeat split; lia.
  - destruct (offered e (session w)); [| discriminate].
    destruct (IH _ _ Hrun) as (Hlen & Hnext & Hgen).
    destruct (dispatch_accounts e w) as (Hlen1 & Hnext1 & Hgen1).
    assert (Hsel : selections (e :: rest) = (selections [e] + selections rest)%nat).
    { unfold selections. cbn. destruct e; reflexivity. }
    assert (Hsub : submissions (e :: rest) = (submissions [e] + submissions rest)%nat).
    { unfold submissions. cbn. destruct e; reflexivity. }
    rewrite Hsel, Hsub. repeat split; lia.
Qed.

(** X13: in every reachable world whose state is [IDLE] or [CAPTURING] the
    session holds nothing: no file, no preview, an empty prompt, no result
    and no error. *)
Theorem idle_session_is_empty (w : World) :
  reachable w ->
  appState (session w) = IDLE \/ appState (session w) = CAPTURING ->
  session w = mkSession (appState (session w)) None None [] None None.
Proof.
  intros Hreach Hst. pose proof (reachable_coherent w Hreach) as Hc.
  unfold coherent in Hc. destruct (session w) as [st f u p g e].
  cbn [appState selectedFile previewUrl prompt generatedImage error] in *.
  destruct Hst as [-> | ->]; destruct Hc as (-> & -> & -> & -> & ->);
    reflexivity.
Qed.

Lemma idle_session_is_empty_witness :
  session (exec resetApp Samples.rejected)
  = mkSession (appState (session (exec resetApp Samples.rejected)))
              None None [] None None.
Proof.
  apply (idle_session_is_empty (exec resetApp Samples.rejected)).
  - exists (Samples.toRejected ++ [BackClicked])%list. vm_compute. reflexivity.
  - left. reflexivity.
Defined.

(** X14: in every reachable world whose state is [PREVIEW], [GENERATING] or
    [RESULT] a file is selected and the preview reference resolves, in the
    blob URL store, to that file. *)
Theorem preview_shows_selected_file (w : World) :
  reachable w ->
  appState (session w) = PREVIEW \/ appState (session w) = GENERATING \/
  appState (session w) = RESULT ->
  exists file url,
    selectedFile (session w) = Some file /\
    previewUrl (session w) = Some url /\
    resolveObjectURL url (blobs w) = Some file.
Proof.
  intros Hreach Hst. pose proof (reachable_coherent w Hreach) as Hc.
  unfold coherent in Hc.
  destruct Hst as [Hst | [Hst | Hst]]; rewrite Hst in Hc;
    destruct Hc as [Himg _]; exact Himg.
Qed.

Lemma preview_shows_selected_file_witness :
  exists file url,
    selectedFile (session Samples.displayed) = Some file /\
    previewUrl (session Samples.displayed) = Some url /\
    resolveObjectURL url (blobs Samples.displayed) = Some file.
Proof.
  apply (preview_shows_selected_file Samples.displayed).
  - exists Samples.toDisplayed. vm_compute. reflexivity.
  - right. right. reflexivity.
Defined.

(** X15: in every reachable world a result is stored exactly when the state
    is [RESULT], the prompt is not blank in [GENERATING] and [RESULT], and
    an error, when there is one, is not the empty string. *)
Theorem reachable_fields_by_state (w : World) :
  reachable w ->
  (generatedImage (session w) <> None <-> appState (session w) = RESULT) /\
  (appState (session w) = GENERATING \/ appState (session w) = RESULT ->
   blank (prompt (session w)) = false) /\
  error (session w) <> Some "".
Proof.
  intros Hreach. pose proof (reachable_coherent w Hreach) as Hc.
  unfold coherent in Hc.
  destruct (appState (session w)) eqn:Hst.
  - destruct Hc as (_ & _ & _ & Hg & He). rewrite Hg, He.
    repeat split; try congruence. intros [H | H]; discriminate.
  - destruct Hc as (_ & _ & _ & Hg & He). rewrite Hg, He.
    repeat split; try congruence. intros [H | H]; discriminate.
  - destruct Hc as (_ & Hg & He). rewrite Hg.
    repeat split; try congruence. intros [H | H]; discriminate.
  - destruct Hc as (_ & Hg & He & Hp). rewrite Hg, He.
    repeat split; try congruence.
  - destruct Hc as (_ & Hg & He & Hp). rewrite He.
    repeat split; try congruence.
Qed.

Lemma reachable_fields_by_state_witness :
  (generatedImage (session Samples.rejected) <> None
   <-> appState (session Samples.rejected) = RESULT) /\
  (appState (session Samples.rejected) = GENERATING \/
   appState (session Samples.rejected) = RESULT ->
   blank (prompt (session Samples.rejected)) = false) /\
  error (session Samples.rejected) <> Some "".
Proof.
  apply (reachable_fields_by_state Samples.rejected).
  exists Samples.toRejected. vm_compute. reflexivity.
Defined.

(** X16: along any run the blob URL store gains exactly one entry per
    selection or capture and loses none: resets do not shrink it. *)
Theorem blob_store_grows_with_selections (es : list Event) (w w' : World) :
  runEvents es w = Some w' ->
  (List.length (entries (blobs w')) = List.length (entries (blobs w)) + selections es)%nat /\
  (nextId (blobs w') = nextId (blobs w) + selections es)%nat.
Proof.
  intros Hrun. destruct (runEvents_accounts es w w' Hrun) as (Hlen & Hnext & _).
  split; assumption.
Qed.

Lemma blob_store_grows_with_selections_witness :
  (List.length (entries (blobs (exec (handleFileSelect Samples.selfie)
                                     (exec resetApp Samples.rejected))))
   = List.length (entries (blobs initialWorld))
     + selections (Samples.toRejected ++ [BackClicked; FileSelected Samples.selfie]))%nat /\
  (nextId (blobs (exec (handleFileSelect Samples.selfie)
                       (exec resetApp Samples.rejected)))
   = nextId (blobs initialWorld)
     + selections (Samples.toRejected ++ [BackClicked; FileSelected Samples.selfie]))%nat.
Proof.
  apply (blob_store_grows_with_selections
           (Samples.toRejected ++ [BackClicked; FileSelected Samples.selfie])%list
           initialWorld).
  vm_compute. reflexivity.
Defined.

(** X17: along any run the collaborator is called at most once per click
    on the submit button: a failed generation is not retried. *)
Theorem one_generate_call_per_click (es : list Event) (w w' : World) :
  runEvents es w = Some w' ->
  (generateCalls (calls w') <= generateCalls (calls w) + submissions es)%nat.
Proof.
  intros Hrun. destruct (runEvents_accounts es w w' Hrun) as (_ & _ & Hgen).
  exact Hgen.
Qed.

Lemma one_generate_call_per_click_witness :
  (generateCalls (calls Samples.rejected)
   <= generateCalls (calls initialWorld) + submissions Samples.toRejected)%nat.
Proof.
  apply (one_generate_call_per_click Samples.toRejected initialWorld).
  vm_compute. reflexivity.
Defined.

(** X18: from every reachable world that is not in [GENERATING] and whose
    result, if any, is not the empty URL, at most one offered event leads
    back to the initial session. *)
Theorem initial_session_one_event_away (w : World) :
  reachable w ->
  appState (session w) <> GENERATING ->
  generatedImage (session w) <> Some "" ->
  exists es w',
    (List.length es <= 1)%nat /\
    runEvents es w = Some w' /\
    session w' = initialSession.
Proof.
  intros Hreach Hgen Hne. pose proof (reachable_coherent w Hreach) as Hc.
  unfold coherent in Hc. destruct (appState (session w)) eqn:Hst.
  - exists [], w. split; [cbn; lia |]. split; [reflexivity |].
    destruct (session w) as [st f u p g e]. cbn in *.
    destruct Hc as (-> & -> & -> & -> & ->). rewrite Hst. reflexivity.
  - exists [CaptureCancelled], (exec (dispatch CaptureCancelled) w).
    split; [cbn; lia |]. split.
    + cbn [runEvents]. unfold offered. rewrite Hst. reflexivity.
    + destruct (session w) as [st f u p g e] eqn:Hs. cbn in Hc.
      destruct Hc as (-> & -> & -> & -> & ->).
      cbn. rewrite Hs. reflexivity.
  - exists [BackClicked], (exec (dispatch BackClicked) w).
    split; [cbn; lia |]. split; [| reflexivity].
    destruct Hc as ((file & url & _ & Hu & _) & _).
    cbn [runEvents]. unfold offered. rewrite Hst, Hu. reflexivity.
  - congruence.
  - exists [TryAnotherClicked], (exec (dispatch TryAnotherClicked) w).
    split; [cbn; lia |]. split; [| reflexivity].
    destruct Hc as (_ & Hg & _).
    cbn [runEvents]. unfold offered. rewrite Hst.
    destruct (generatedImage (session w)) as [u |]; [| congruence].
    destruct (String.eqb_spec u ""); [subst; congruence | reflexivity].
Qed.

Lemma initial_session_one_event_away_witness :
  exists es w',
    (List.length es <= 1)%nat /\
    runEvents es Samples.displayed = Some w' /\
    session w' = initialSession.
Proof.
  apply (initial_session_one_event_away Samples.displayed).
  - exists Samples.toDisplayed. vm_compute. reflexivity.
  - discriminate.
  - discriminate.
Defined.

(** X19: what the main card renders in a reachable world: exactly one
    panel, by the state, and none only for a result that is the empty URL.
    The prompt form shows the preview, shows the error whenever there is
    one, and disables the submit button exactly for a blank prompt. *)
Theorem render_by_state (w : World) :
  reachable w ->
  (appState (session w) = IDLE -> render (session w) = [UploadPanel]) /\
  (appState (session w) = CAPTURING -> render (session w) = [CameraPanel]) /\
  (appState (session w) = PREVIEW ->
   exists url,
     previewUrl (session w) = Some url /\
     render (session w)
     = [PromptPanel url (error (session w)) (blank (prompt (session w)))]) /\
  (appState (session w) = GENERATING -> render (session w) = [SpinnerPanel]) /\
  (appState (session w) = RESULT ->
   exists url,
     generatedImage (session w) = Some url /\
     render (session w) = if String.eqb url "" then [] else [ResultPanel url]).
Proof.
  intros Hreach. pose proof (reachable_coherent w Hreach) as Hc.
  unfold coherent in Hc. unfold render.
  repeat split; intros Hst; rewrite Hst in Hc |- *; cbn [appStateEqb shown app andb].
  - destruct Hc as (_ & -> & _ & -> & _). reflexivity.
  - destruct Hc as (_ & -> & _ & -> & _). reflexivity.
  - destruct Hc as ((file & url & _ & Hu & _) & Hg & He).
    exists url. split; [exact Hu |]. rewrite Hu, Hg, truthy_trim, negb_involutive.
    destruct (error (session w)) as [m |]; cbn; [| reflexivity].
    destruct (String.eqb_spec m ""); [subst; congruence | reflexivity].
  - destruct Hc as ((file & url & _ & Hu & _) & Hg & _). rewrite Hu, Hg.
    reflexivity.
  - destruct Hc as ((file & u & _ & Hu & _) & Hg & _). rewrite Hu.
    destruct (generatedImage (session w)) as [url |]; [| congruence].
    exists url. split; [reflexivity |]. cbn.
    destruct (String.eqb url ""); reflexivity.
Qed.

Lemma render_by_state_witness :
  (appState (session Samples.rejected) = IDLE ->
   render (session Samples.rejected) = [UploadPanel]) /\
  (appState (session Samples.rejected) = CAPTURING ->
   render (session Samples.rejected) = [CameraPanel]) /\
  (appState (session Samples.rejected) = PREVIEW ->
   exists url,
     previewUrl (session Samples.rejected) = Some url /\
     render (session Samples.rejected)
     = [PromptPanel url (error (session Samples.rejected))
                    (blank (prompt (session Samples.rejected)))]) /\
  (appState (session Samples.rejected) = GENERATING ->
   render (session Samples.rejected) = [SpinnerPanel]) /\
  (appState (session Samples.rejected) = RESULT ->
   exists url,
     generatedImage (session Samples.rejected) = Some url /\
     render (session Samples.rejected)
     = if String.eqb url "" then [] else [ResultPanel url]).
Proof.
  apply (render_by_state Samples.rejected).
  exists Samples.toRejected. vm_compute. reflexivity.
Defined.

(** X20: in every reachable world in [PREVIEW] the [disabled] flag of the
    submit button and the guard of [handleGenerate] agree: the button is
    disabled exactly when a click would change nothing. *)
Theorem disabled_button_matches_guard (gen : Generator) (w : World) :
  reachable w ->
  appState (session w) = PREVIEW ->
  (negb (truthy (trim (prompt (session w)))) = true
   <-> handleGenerate gen w = (Normal tt, w)).
Proof.
  intros Hreach Hst. pose proof (reachable_coherent w Hreach) as Hc.
  unfold coherent in Hc. rewrite Hst in Hc.
  destruct Hc as ((file & url & Hf & _ & _) & _).
  rewrite truthy_trim, negb_involutive. split.
  - intros Hp. apply handleGenerate_blocked. right. exact Hp.
  - intros Hnoop. destruct (blank (prompt (session w))) eqn:Hp; [reflexivity |].
    exfalso.
    pose proof (handleGenerate_calls gen w file Hf Hp) as Hcalls.
    unfold exec in Hcalls. rewrite Hnoop in Hcalls. cbn [snd] in Hcalls.
    symmetry in Hcalls. exact (calls_grow _ _ _ Hcalls).
Qed.

Lemma disabled_button_matches_guard_witness :
  negb (truthy (trim (prompt (session Samples.chosen)))) = true
  <-> handleGenerate Samples.succeeding Samples.chosen = (Normal tt, Samples.chosen).
Proof.
  apply (disabled_button_matches_guard Samples.succeeding Samples.chosen).
  - exists [FileSelected Samples.photo]. vm_compute. reflexivity.
  - vm_compute. reflexivity.
Defined.

End RunFacts.
